(** * pwm-cadence: PWM driver for Cadence Triple Timer Counter (TTC) IPs

    A shallow embedding of [src/kernel/pwm-cadence.c] and the properties of
    its configuration algorithm and channel operations.

    C integers are mathematical integers ([Z]) with every conversion written
    out; the memory-mapped register block is a store from byte offsets to
    32-bit words in which a read returns the word last written; the clocks
    are reference-counted cores in a store shared by the channels. *)

From Stdlib Require Import ZArith Lia List Bool.
From Stdlib Require String DecimalString.
Import String.StringSyntax.
Import ListNotations.

Local Open Scope string_scope.
Local Open Scope Z_scope.

(** ** Machine integers *)

Module CInt.

Definition INT_MAX : Z := 2147483647.
Definition INT_MIN : Z := -2147483648.

(** Conversion to [uint32_t]. *)
Definition to_u32 (z : Z) : Z := z mod 2 ^ 32.

(** Conversion to [u64]. *)
Definition to_u64 (z : Z) : Z := z mod 2 ^ 64.

(** Conversion to [int] (two's complement, as gcc defines it). *)
Definition to_s32 (z : Z) : Z := (z + 2 ^ 31) mod 2 ^ 32 - 2 ^ 31.

(** Conversion to [int64_t]; the kernel is built with wrapping signed
    arithmetic, so this is also what a 64-bit signed product yields. *)
Definition to_s64 (z : Z) : Z := (z + 2 ^ 63) mod 2 ^ 64 - 2 ^ 63.

(** [~x] of an [int] constant used as a [uint32_t] mask. *)
Definition not_u32 (z : Z) : Z := to_u32 (Z.lnot z).

End CInt.
Import CInt.

(** ** Kernel helpers used by the driver

    The driver calls into the Linux kernel ([errno], [div64_u64], [ilog2],
    the common clock framework); their code is not part of the driver's
    sources, so each helper is modelled here. *)

(** Modelled from the spec: the errno constant behind the invalid-argument
    condition ([-EINVAL] at line 151); 22 in the kernel. *)
Definition EINVAL : Z := 22.

(** Modelled from the spec: [div64_u64] of <asm/div64.h>, the [floor] of
    the quotient of two unsigned 64-bit operands. *)
Definition div64_u64 (dividend divisor : Z) : Z := dividend / divisor.

(** Modelled from the spec: the kernel's [fls], the bit-width primitive
    behind [ilog2]: the position of the most significant set bit of a
    32-bit word, counted from 1, and 0 for the word 0, so that [fls n] is
    the number of bits needed to represent [n].  [fls_from n x] scans the
    bits [n-1 .. 0] of [x] from the top. *)
Fixpoint fls_from (n : nat) (x : Z) : Z :=
  match n with
  | O => 0
  | S k => if Z.testbit x (Z.of_nat k) then Z.of_nat (S k) else fls_from k x
  end.

Definition fls (x : Z) : Z := fls_from 32 (to_u32 x).

(** Modelled from the spec: the kernel's [ilog2] macro, [floor (log2 n)];
    on a 4-byte run-time operand it is [__ilog2_u32], that is [fls(n) - 1]
    on the operand converted to [u32] (so [-1] on 0). *)
Definition ilog2 (n : Z) : Z := fls n - 1.

(** ** Nanoseconds to clock ticks, and the prescaler (lines 159-165) *)

(** The 64-bit quotient of lines 159-161 and 186-188:
    [div64_u64((int64_t)ns * (int64_t)clk_get_rate(clk), 1000000000LL)]. *)
Definition clocks_u64 (ns rate : Z) : Z :=
  div64_u64 (to_u64 (to_s64 (to_s64 ns * to_s64 rate))) (to_u64 1000000000).

(** The quotient as stored in the [int] variables [period_clocks] and
    [duty_clocks]. *)
Definition ns_to_clocks (ns rate : Z) : Z := to_s32 (clocks_u64 ns rate).

(** Lines 163-165: [prescaler = ilog2(period_clocks) + 1 - 16], clamped
    below at 0. *)
Definition cadence_prescaler (period_clocks : Z) : Z :=
  let prescaler := ilog2 period_clocks + 1 - 16 in
  if prescaler <? 0 then 0 else prescaler.

(** ** Register description (lines 30-74) *)

Inductive cpwm_register : Type :=
| CPWM_CLK_CTRL
| CPWM_COUNTER_CTRL
| CPWM_COUNTER_VALUE
| CPWM_INTERVAL_COUNTER
| CPWM_MATCH_1_COUNTER
| CPWM_MATCH_2_COUNTER
| CPWM_MATCH_3_COUNTER
| CPWM_INTERRUPT_REGISTER
| CPWM_INTERRUPT_ENABLE
| CPWM_EVENT_CONTROL_TIMER
| CPWM_EVENT_REGISTER.

(** The value of each enumerator. *)
Definition cpwm_register_num (reg : cpwm_register) : Z :=
  match reg with
  | CPWM_CLK_CTRL => 0
  | CPWM_COUNTER_CTRL => 1
  | CPWM_COUNTER_VALUE => 2
  | CPWM_INTERVAL_COUNTER => 3
  | CPWM_MATCH_1_COUNTER => 4
  | CPWM_MATCH_2_COUNTER => 5
  | CPWM_MATCH_3_COUNTER => 6
  | CPWM_INTERRUPT_REGISTER => 7
  | CPWM_INTERRUPT_ENABLE => 8
  | CPWM_EVENT_CONTROL_TIMER => 9
  | CPWM_EVENT_REGISTER => 10
  end.

Definition CPWM_CLK_FALLING_EDGE : Z := 0x40.
Definition CPWM_CLK_SRC_EXTERNAL : Z := 0x20.
Definition CPWM_CLK_PRESCALE_SHIFT : Z := 1.
Definition CPWM_CLK_PRESCALE_MASK : Z := Z.shiftl 15 1.
Definition CPWM_CLK_PRESCALE_ENABLE : Z := 1.

Definition CPWM_COUNTER_CTRL_WAVE_POL : Z := 0x40.
Definition CPWM_COUNTER_CTRL_WAVE_DISABLE : Z := 0x20.
Definition CPWM_COUNTER_CTRL_RESET : Z := 0x10.
Definition CPWM_COUNTER_CTRL_MATCH_ENABLE : Z := 0x8.
Definition CPWM_COUNTER_CTRL_DECREMENT_ENABLE : Z := 0x4.
Definition CPWM_COUNTER_CTRL_INTERVAL_ENABLE : Z := 0x2.
Definition CPWM_COUNTER_CTRL_COUNTING_DISABLE : Z := 0x1.

Definition CPWM_NUM_PWM : Z := 3.

(** ** State *)

Inductive pwm_polarity : Type :=
| PWM_POLARITY_NORMAL
| PWM_POLARITY_INVERSED.

(** A clock of the common clock framework, as far as the driver sees it:
    its rate (an [unsigned long]), its prepare and enable reference counts,
    and the error its prepare/enable operations report ([0] when the clock
    can be started). *)
Record clk_core : Type := mk_clk_core {
  clk_rate : Z;
  clk_prepare_count : nat;
  clk_enable_count : nat;
  clk_errno : Z
}.

(** [struct cadence_pwm_pwm]; [clk] is the pointer, an index into the clock
    store, so two channels may name the same clock. *)
Record cadence_pwm_pwm : Type := mk_cadence_pwm_pwm {
  clk : nat;
  useExternalClk : bool;
  polarity : pwm_polarity
}.

(** What [cpwm_read] and [cpwm_write] report through [dev_dbg]. *)
Inductive io_event : Type :=
| IoRead (pwm : Z) (reg : cpwm_register) (x : Z)
| IoWrite (pwm : Z) (reg : cpwm_register) (value : Z).

(** [struct cadence_pwm_chip] together with what its pointers reach: the
    channel array [pwms] indexed by [hwpwm] (the PWM core hands out
    [0 <= hwpwm < CPWM_NUM_PWM]), the register block behind [base] as a
    store from byte offsets to words, the clock store, and the debug log
    (most recent access first). *)
Record cadence_pwm_chip : Type := mk_cadence_pwm_chip {
  pwms : Z -> cadence_pwm_pwm;
  mmio : Z -> Z;
  clocks : nat -> clk_core;
  dev_dbg : list io_event
}.

Definition set_pwms (f : Z -> cadence_pwm_pwm) (s : cadence_pwm_chip) :=
  mk_cadence_pwm_chip f (mmio s) (clocks s) (dev_dbg s).

Definition set_mmio (m : Z -> Z) (s : cadence_pwm_chip) :=
  mk_cadence_pwm_chip (pwms s) m (clocks s) (dev_dbg s).

Definition set_clocks (c : nat -> clk_core) (s : cadence_pwm_chip) :=
  mk_cadence_pwm_chip (pwms s) (mmio s) c (dev_dbg s).

Definition log_dev_dbg (e : io_event) (s : cadence_pwm_chip) :=
  mk_cadence_pwm_chip (pwms s) (mmio s) (clocks s) (e :: dev_dbg s).

(** ** Clock framework operations the driver calls *)

(** Modelled from the spec: [clk_prepare_enable] of <linux/clk.h>, the
    clock handle's prepare+enable.  On success both counts go up by one and
    [0] is returned; on failure the error is returned and nothing
    changes. *)
Definition clk_prepare_enable (c : nat) (s : cadence_pwm_chip)
  : Z * cadence_pwm_chip :=
  let core := clocks s c in
  if clk_errno core =? 0 then
    let core' := mk_clk_core (clk_rate core) (S (clk_prepare_count core))
                             (S (clk_enable_count core)) (clk_errno core) in
    (0, set_clocks (fun c' => if Nat.eqb c' c then core' else clocks s c') s)
  else (clk_errno core, s).

(** Modelled from the spec: [clk_disable_unprepare], the clock handle's
    disable+unprepare: both counts go down by one (not below 0). *)
Definition clk_disable_unprepare (c : nat) (s : cadence_pwm_chip)
  : cadence_pwm_chip :=
  let core := clocks s c in
  let core' := mk_clk_core (clk_rate core) (Nat.pred (clk_prepare_count core))
                           (Nat.pred (clk_enable_count core)) (clk_errno core) in
  set_clocks (fun c' => if Nat.eqb c' c then core' else clocks s c') s.

(** Modelled from the spec: [clk_get_rate], the handle's current rate. *)
Definition clk_get_rate (c : nat) (s : cadence_pwm_chip) : Z :=
  clk_rate (clocks s c).

(** ** Register access (lines 102-126) *)

(** Byte offset of a register from [cpwm->base]. *)
Definition cpwm_register_address (pwm : Z) (reg : cpwm_register) : Z :=
  4 * (3 * cpwm_register_num reg + pwm).

(** Modelled from the spec: [ioread32] and [iowrite32] of <linux/io.h>,
    ordered 32-bit loads and stores on the register block. *)
Definition ioread32 (addr : Z) (s : cadence_pwm_chip) : Z :=
  to_u32 (mmio s addr).

Definition iowrite32 (value addr : Z) (s : cadence_pwm_chip)
  : cadence_pwm_chip :=
  set_mmio (fun a => if a =? addr then to_u32 value else mmio s a) s.

Definition cpwm_read (s : cadence_pwm_chip) (pwm : Z) (reg : cpwm_register)
  : Z * cadence_pwm_chip :=
  let x := ioread32 (cpwm_register_address pwm reg) s in
  (x, log_dev_dbg (IoRead pwm reg x) s).

Definition cpwm_write (s : cadence_pwm_chip) (pwm : Z) (reg : cpwm_register)
  (value : Z) : cadence_pwm_chip :=
  iowrite32 value (cpwm_register_address pwm reg)
    (log_dev_dbg (IoWrite pwm reg (to_u32 value)) s).

(** The word a register holds, without the access being logged. *)
Definition reg_value (s : cadence_pwm_chip) (pwm : Z) (reg : cpwm_register)
  : Z :=
  ioread32 (cpwm_register_address pwm reg) s.

(** ** Channel operations (lines 132-261) *)

(** Lines 169-176: the prescaler bits of the clock-control word. *)
Definition clk_ctrl_prescale (x prescaler : Z) : Z :=
  if prescaler =? 0 then
    Z.land x (not_u32 (Z.lor CPWM_CLK_PRESCALE_ENABLE CPWM_CLK_PRESCALE_MASK))
  else
    Z.lor (Z.land x (not_u32 CPWM_CLK_PRESCALE_MASK))
          (Z.lor CPWM_CLK_PRESCALE_ENABLE
                 (Z.land (Z.shiftl (prescaler - 1) CPWM_CLK_PRESCALE_SHIFT)
                         CPWM_CLK_PRESCALE_MASK)).

(** Lines 178-181: the clock-source bit. *)
Definition clk_ctrl_source (x : Z) (external : bool) : Z :=
  if external then Z.lor x CPWM_CLK_SRC_EXTERNAL
  else Z.land x (not_u32 CPWM_CLK_SRC_EXTERNAL).

(** Lines 196-204: the counter-control word written back at the end. *)
Definition counter_ctrl_restore (counter_ctrl : Z) (pol : pwm_polarity) : Z :=
  let counter_ctrl :=
    Z.land counter_ctrl (not_u32 CPWM_COUNTER_CTRL_DECREMENT_ENABLE) in
  let counter_ctrl :=
    Z.lor counter_ctrl
          (Z.lor (Z.lor CPWM_COUNTER_CTRL_INTERVAL_ENABLE
                        CPWM_COUNTER_CTRL_RESET)
                 CPWM_COUNTER_CTRL_MATCH_ENABLE) in
  match pol with
  | PWM_POLARITY_NORMAL => Z.lor counter_ctrl CPWM_COUNTER_CTRL_WAVE_POL
  | PWM_POLARITY_INVERSED =>
      Z.land counter_ctrl (not_u32 CPWM_COUNTER_CTRL_WAVE_POL)
  end.

(** [cadence_pwm_config]: the return value and the state it leaves. *)
Definition cadence_pwm_config (s : cadence_pwm_chip) (h duty_ns period_ns : Z)
  : Z * cadence_pwm_chip :=
  let '(ret, s) := clk_prepare_enable (clk (pwms s h)) s in
  if negb (ret =? 0) then (ret, s) else
  if period_ns <? 0 then (- EINVAL, s) else
  (* Make sure counter is stopped *)
  let '(counter_ctrl, s) := cpwm_read s h CPWM_COUNTER_CTRL in
  let s := cpwm_write s h CPWM_COUNTER_CTRL
             (Z.lor counter_ctrl CPWM_COUNTER_CTRL_COUNTING_DISABLE) in
  (* Calculate period, prescaler and set clock control register *)
  let period_clocks :=
    ns_to_clocks period_ns (clk_get_rate (clk (pwms s h)) s) in
  let prescaler := cadence_prescaler period_clocks in
  let '(x, s) := cpwm_read s h CPWM_CLK_CTRL in
  let x := clk_ctrl_prescale x prescaler in
  let x := clk_ctrl_source x (useExternalClk (pwms s h)) in
  let s := cpwm_write s h CPWM_CLK_CTRL x in
  (* Calculate interval and set counter control value *)
  let duty_clocks :=
    ns_to_clocks duty_ns (clk_get_rate (clk (pwms s h)) s) in
  let s := cpwm_write s h CPWM_INTERVAL_COUNTER
             (Z.land (Z.shiftr period_clocks prescaler) 0xffff) in
  let s := cpwm_write s h CPWM_MATCH_1_COUNTER
             (Z.land (Z.shiftr duty_clocks prescaler) 0xffff) in
  (* Restore counter *)
  let counter_ctrl := counter_ctrl_restore counter_ctrl (polarity (pwms s h)) in
  let s := cpwm_write s h CPWM_COUNTER_CTRL counter_ctrl in
  (0, s).

Definition cadence_pwm_disable (s : cadence_pwm_chip) (h : Z)
  : cadence_pwm_chip :=
  let '(x, s) := cpwm_read s h CPWM_COUNTER_CTRL in
  let x := Z.lor x (Z.lor CPWM_COUNTER_CTRL_COUNTING_DISABLE
                          CPWM_COUNTER_CTRL_WAVE_DISABLE) in
  let s := cpwm_write s h CPWM_COUNTER_CTRL x in
  clk_disable_unprepare (clk (pwms s h)) s.

Definition cadence_pwm_enable (s : cadence_pwm_chip) (h : Z)
  : Z * cadence_pwm_chip :=
  let '(ret, s) := clk_prepare_enable (clk (pwms s h)) s in
  if negb (ret =? 0) then (ret, s) else
  let '(x, s) := cpwm_read s h CPWM_COUNTER_CTRL in
  let x := Z.land x (not_u32 (Z.lor CPWM_COUNTER_CTRL_COUNTING_DISABLE
                                    CPWM_COUNTER_CTRL_WAVE_DISABLE)) in
  let x := Z.lor x CPWM_COUNTER_CTRL_RESET in
  let s := cpwm_write s h CPWM_COUNTER_CTRL x in
  (0, s).

Definition cadence_set_polarity (s : cadence_pwm_chip) (h : Z)
  (pol : pwm_polarity) : Z * cadence_pwm_chip :=
  let p := pwms s h in
  let p' := mk_cadence_pwm_pwm (clk p) (useExternalClk p) pol in
  (0, set_pwms (fun i => if i =? h then p' else pwms s i) s).

(** ** Observations used in the statements *)

(** A channel is enabled when the counting-disabled and waveform-disable
    bits of its counter-control register are both clear. *)
Definition channel_enabled (s : cadence_pwm_chip) (h : Z) : bool :=
  negb (Z.testbit (reg_value s h CPWM_COUNTER_CTRL) 0)
  && negb (Z.testbit (reg_value s h CPWM_COUNTER_CTRL) 5).

(** The values [cadence_pwm_config] computes from its arguments and the
    channel's clock rate. *)
Definition period_clocks_of (s : cadence_pwm_chip) (h period_ns : Z) : Z :=
  ns_to_clocks period_ns (clk_get_rate (clk (pwms s h)) s).

Definition duty_clocks_of (s : cadence_pwm_chip) (h duty_ns : Z) : Z :=
  ns_to_clocks duty_ns (clk_get_rate (clk (pwms s h)) s).

Definition prescaler_of (s : cadence_pwm_chip) (h period_ns : Z) : Z :=
  cadence_prescaler (period_clocks_of s h period_ns).

Definition interval_count (s : cadence_pwm_chip) (h period_ns : Z) : Z :=
  Z.land (Z.shiftr (period_clocks_of s h period_ns)
                   (prescaler_of s h period_ns)) 0xffff.

Definition match_count (s : cadence_pwm_chip) (h duty_ns period_ns : Z) : Z :=
  Z.land (Z.shiftr (duty_clocks_of s h duty_ns)
                   (prescaler_of s h period_ns)) 0xffff.

(** Whether the channel's clock can be started. *)
Definition clk_available (s : cadence_pwm_chip) (h : Z) : bool :=
  clk_errno (clocks s (clk (pwms s h))) =? 0.

(** ** Example states *)

(** A chip as the TTC leaves reset ([UG585]: counter control [0x21], all
    other registers 0), every channel on clock 0 with the given rate and
    prepare/enable outcome, normal polarity. *)
Definition reset_chip (rate errno : Z) : cadence_pwm_chip :=
  mk_cadence_pwm_chip
    (fun _ => mk_cadence_pwm_pwm 0%nat false PWM_POLARITY_NORMAL)
    (fun a => if (a =? 12) || (a =? 16) || (a =? 20) then 0x21 else 0)
    (fun _ => mk_clk_core rate 0 0 errno)
    [].

(** The same chip with channel [h] running: its counter-control register
    holds interval mode, match mode and normal wave polarity ([0x4a]). *)
Definition running_chip (rate : Z) (h : Z) : cadence_pwm_chip :=
  set_mmio (fun a => if a =? cpwm_register_address h CPWM_COUNTER_CTRL
                     then 0x4a else mmio (reset_chip rate 0) a)
           (reset_chip rate 0).

(** A channel index the PWM core can hand to the driver
    ([chip.npwm = CPWM_NUM_PWM], line 333). *)
Definition valid_hwpwm (h : Z) : Prop := 0 <= h < CPWM_NUM_PWM.

(** ** Probing the device (lines 271-348)

    [cadence_pwm_probe] talks to the platform bus, the device-managed
    allocator, the clock lookup and the PWM core.  What those answer is the
    data of a [platform_device]; the control flow is the driver's. *)

Definition ENOMEM : Z := 12.
Definition ENODEV : Z := 19.

(** A pointer-or-error result ([IS_ERR] / [PTR_ERR]). *)
Inductive ptr_result : Type :=
| PtrOk
| PtrErr (err : Z).

(** Modelled from the spec: the answers of the outbound collaborators of
    [cadence_pwm_probe]: whether [devm_kzalloc] returns memory, what
    [devm_ioremap_resource] returns for the register region, which clock
    [devm_clk_get] finds under a name ([None] as the name is the [NULL]
    connection id; [None] as the answer is an error pointer), and what
    [pwmchip_add] returns. *)
Record platform_device : Type := mk_platform_device {
  devm_kzalloc_ok : bool;
  devm_ioremap_resource : ptr_result;
  devm_clk_get : option String.string -> option nat;
  pwmchip_add : Z
}.

(** Modelled from the spec: [clk_is_match], whether two handles name the
    same clock. *)
Definition clk_is_match (p q : nat) : bool := Nat.eqb p q.

(** [snprintf(clockname, sizeof(clockname), "clock%d", i)] (line 308). *)
Definition clockname (i : nat) : String.string :=
  String.append "clock"
    (DecimalString.NilEmpty.string_of_uint (Nat.to_uint i)).

(** [devm_clk_get(dev, name)], falling back to [devm_clk_get(dev, NULL)]
    when the named clock is missing (lines 290-293 and 311-314). *)
Definition clk_get_or_default (pdev : platform_device) (name : String.string)
  : option nat :=
  match devm_clk_get pdev (Some name) with
  | Some c => Some c
  | None => devm_clk_get pdev None
  end.

(** The loop of lines 306-329 from index [i], with [n] channels left:
    [None] is the jump to [disable_system_clk]. *)
Fixpoint probe_channels (pdev : platform_device) (system_clk : nat)
  (n i : nat) (pw : Z -> cadence_pwm_pwm) : option (Z -> cadence_pwm_pwm) :=
  match n with
  | O => Some pw
  | S k =>
      match clk_get_or_default pdev (clockname i) with
      | None => None
      | Some c =>
          let useExternalClk := negb (clk_is_match c system_clk) in
          let pwm := mk_cadence_pwm_pwm c useExternalClk PWM_POLARITY_NORMAL in
          probe_channels pdev system_clk k (S i)
            (fun j => if j =? Z.of_nat i then pwm else pw j)
      end
  end.

(** [cadence_pwm_probe]: the return value, the state it leaves, and the
    system clock kept in the chip on success.  On a failure the chip
    structure is released with the device, so the channel table of the
    state is then the caller's. *)
Definition cadence_pwm_probe (pdev : platform_device) (s : cadence_pwm_chip)
  : Z * cadence_pwm_chip * option nat :=
  if negb (devm_kzalloc_ok pdev) then (- ENOMEM, s, None) else
  match devm_ioremap_resource pdev with
  | PtrErr err => (err, s, None)
  | PtrOk =>
      match clk_get_or_default pdev "system_clk" with
      | None => (- ENODEV, s, None)
      | Some system_clk =>
          let '(ret, s1) := clk_prepare_enable system_clk s in
          if negb (ret =? 0) then (ret, s1, None) else
          match probe_channels pdev system_clk (Z.to_nat CPWM_NUM_PWM) 0
                               (pwms s1) with
          | None => (- ENODEV, clk_disable_unprepare system_clk s1, None)
          | Some pw =>
              let ret := pwmchip_add pdev in
              if ret <? 0
              then (ret, clk_disable_unprepare system_clk s1, None)
              else (0, set_pwms pw s1, Some system_clk)
          end
      end
  end.

(** A device tree that names a system clock (clock 0) and gives channel 1
    a clock of its own (clock 1); the other channels fall back to the
    default clock, which is the system clock. *)
Definition example_pdev : platform_device :=
  mk_platform_device true PtrOk
    (fun name =>
       match name with
       | None => Some 0%nat
       | Some n =>
           if String.eqb n "system_clk" then Some 0%nat
           else if String.eqb n "clock1" then Some 1%nat
           else None
       end)
    0.

(** ** Properties of the integer layer *)

Lemma to_u32_small (z : Z) : 0 <= z < 2 ^ 32 -> to_u32 z = z.
Proof. intros H. unfold to_u32. apply Z.mod_small. exact H. Qed.

Lemma fls_from_log2 (n : nat) (x : Z) :
  0 < x < 2 ^ Z.of_nat n -> fls_from n x = Z.log2 x + 1.
Proof.
  induction n as [|k IH]; intros [Hpos Hlt].
  - simpl in Hlt. lia.
  - cbn [fls_from]. destruct (Z.testbit x (Z.of_nat k)) eqn:Hb.
    + assert (Hle : Z.of_nat k <= Z.log2 x).
      { destruct (Z.le_gt_cases (Z.of_nat k) (Z.log2 x)) as [Hk|Hk]; [exact Hk|].
        rewrite Z.bits_above_log2 in Hb by lia. discriminate. }
      assert (Hup : Z.log2 x < Z.of_nat (S k)).
      { apply Z.log2_lt_pow2; lia. }
      lia.
    + assert (Hx : x < 2 ^ Z.of_nat k).
      { destruct (Z.lt_ge_cases x (2 ^ Z.of_nat k)) as [Hk|Hk]; [exact Hk|].
        assert (Hl : Z.log2 x = Z.of_nat k).
        { apply Z.log2_unique; [lia|].
          split; [exact Hk|].
          rewrite Nat2Z.inj_succ in Hlt. exact Hlt. }
        rewrite <- Hl in Hb. rewrite Z.bit_log2 in Hb by lia. discriminate. }
      apply IH. lia.
Qed.

Lemma ilog2_log2 (n : Z) : 0 < n < 2 ^ 32 -> ilog2 n = Z.log2 n.
Proof.
  intros H. unfold ilog2, fls. rewrite to_u32_small by lia.
  rewrite (fls_from_log2 32 n) by (simpl; lia). lia.
Qed.

Lemma ilog2_zero : ilog2 0 = -1.
Proof. reflexivity. Qed.

Lemma shiftr_below_2_16 (p e : Z) :
  0 <= e -> p < 2 ^ (e + 16) -> Z.shiftr p e <= 65535.
Proof.
  intros He Hp. rewrite Z.shiftr_div_pow2 by exact He.
  assert (H : p / 2 ^ e < 2 ^ 16).
  { apply Z.div_lt_upper_bound; [lia|].
    rewrite <- Z.pow_add_r by lia. exact Hp. }
  change (2 ^ 16) with 65536 in H. lia.
Qed.

Lemma shiftr_above_2_16 (p e : Z) :
  0 <= e -> 2 ^ (e + 16) <= p -> Z.shiftr p e > 65535.
Proof.
  intros He Hp. rewrite Z.shiftr_div_pow2 by exact He.
  assert (H : 2 ^ 16 <= p / 2 ^ e).
  { apply Z.div_le_lower_bound; [lia|].
    rewrite <- Z.pow_add_r by lia. exact Hp. }
  change (2 ^ 16) with 65536 in H. lia.
Qed.

Lemma cadence_prescaler_log2 (p : Z) :
  0 < p <= INT_MAX -> cadence_prescaler p = Z.max 0 (Z.log2 p + 1 - 16).
Proof.
  intros H. unfold INT_MAX in H. unfold cadence_prescaler.
  rewrite ilog2_log2 by lia.
  destruct (Z.ltb_spec (Z.log2 p + 1 - 16) 0); lia.
Qed.

(** C1. For every [period_clocks > 0] held by the [int] variable, the
    exponent [e] chosen at lines 163-165 brings [period_clocks >> e] within
    the 16-bit counter range, and it is the least exponent doing so: when
    [e > 0] the exponent [e - 1] overflows, and so does every smaller one. *)
Theorem prescaler_correct (period_clocks : Z) :
  0 < period_clocks <= INT_MAX ->
  let e := cadence_prescaler period_clocks in
  0 <= e /\
  Z.shiftr period_clocks e <= 65535 /\
  (0 < e -> Z.shiftr period_clocks (e - 1) > 65535) /\
  (forall e', 0 <= e' < e -> Z.shiftr period_clocks e' > 65535).
Proof.
  intros H e. subst e. rewrite cadence_prescaler_log2 by exact H.
  unfold INT_MAX in H.
  destruct (Z.log2_spec period_clocks) as [Hlo Hhi]; [lia|].
  assert (Hl : 0 <= Z.log2 period_clocks) by apply Z.log2_nonneg.
  assert (Hlow : forall e', 0 <= e' < Z.max 0 (Z.log2 period_clocks + 1 - 16) ->
                            Z.shiftr period_clocks e' > 65535).
  { intros e' He'. apply shiftr_above_2_16; [lia|].
    apply Z.le_trans with (2 ^ Z.log2 period_clocks); [|exact Hlo].
    apply Z.pow_le_mono_r; lia. }
  split; [lia|]. split; [|split].
  - apply shiftr_below_2_16; [lia|].
    apply Z.lt_le_trans with (2 ^ Z.succ (Z.log2 period_clocks)); [exact Hhi|].
    apply Z.pow_le_mono_r; lia.
  - intros He. apply Hlow. lia.
  - exact Hlow.
Qed.

Lemma prescaler_correct_witness :
  0 < 1000000 <= INT_MAX /\
  Z.shiftr 1000000 (cadence_prescaler 1000000) <= 65535 /\
  Z.shiftr 1000000 (cadence_prescaler 1000000 - 1) > 65535.
Proof.
  assert (H : 0 < 1000000 <= INT_MAX) by (unfold INT_MAX; lia).
  split; [exact H|].
  destruct (prescaler_correct 1000000 H) as [_ [Hfit [Hmin _]]].
  split; [exact Hfit|]. apply Hmin. vm_compute. reflexivity.
Defined.

Lemma to_u64_small (z : Z) : 0 <= z < 2 ^ 64 -> to_u64 z = z.
Proof. intros H. unfold to_u64. apply Z.mod_small. exact H. Qed.

Lemma to_s32_small (z : Z) : - 2 ^ 31 <= z < 2 ^ 31 -> to_s32 z = z.
Proof. intros H. unfold to_s32. rewrite Z.mod_small by lia. lia. Qed.

Lemma to_s64_small (z : Z) : - 2 ^ 63 <= z < 2 ^ 63 -> to_s64 z = z.
Proof. intros H. unfold to_s64. rewrite Z.mod_small by lia. lia. Qed.

(** With a 32-bit rate (every [unsigned long] of a 32-bit kernel) the
    product of lines 160 and 187 stays below [2^63]. *)
Lemma product_fits_s64 (ns rate : Z) :
  0 <= ns <= INT_MAX -> 0 <= rate < 2 ^ 32 -> 0 <= ns * rate < 2 ^ 63.
Proof. unfold INT_MAX. intros Hns Hrate. nia. Qed.

(** Up to 1 GHz the tick count fits the [int] it is stored in. *)
Lemma clocks_fit_int (ns rate : Z) :
  0 <= ns <= INT_MAX -> 0 <= rate <= 1000000000 ->
  0 <= ns * rate / 1000000000 <= INT_MAX.
Proof.
  unfold INT_MAX. intros Hns Hrate. split.
  - apply Z.div_pos; nia.
  - apply Z.lt_succ_r. apply Z.div_lt_upper_bound; nia.
Qed.

Lemma product_s64_exact (ns rate : Z) :
  0 <= ns -> 0 <= rate -> ns * rate < 2 ^ 63 ->
  to_s64 (to_s64 ns * to_s64 rate) = ns * rate.
Proof.
  intros Hns Hrate Hprod.
  destruct (Z.eq_dec ns 0) as [->|Hnz].
  - reflexivity.
  - destruct (Z.eq_dec rate 0) as [->|Hrz].
    + change (to_s64 0) with 0. rewrite !Z.mul_0_r. reflexivity.
    + assert (ns < 2 ^ 63 /\ rate < 2 ^ 63) as [H1 H2] by nia.
      rewrite (to_s64_small ns), (to_s64_small rate) by lia.
      apply to_s64_small. nia.
Qed.

Lemma clocks_u64_exact (ns rate : Z) :
  0 <= ns -> 0 <= rate -> ns * rate < 2 ^ 63 ->
  clocks_u64 ns rate = ns * rate / 1000000000.
Proof.
  intros Hns Hrate Hprod. unfold clocks_u64, div64_u64.
  rewrite product_s64_exact by assumption.
  rewrite (to_u64_small (ns * rate)) by nia.
  reflexivity.
Qed.

(** C2 (as amended). For [0 <= ns <= INT_MAX] and a positive rate whose
    product with [ns] is below [2^63], the signed 64-bit product of lines
    160/187 does not overflow and the 64-bit quotient is
    [floor (ns * rate / 1000000000)]; the value kept in the [int] variable
    is that quotient converted to [int], equal to the floor whenever the
    floor is at most [INT_MAX]. *)
Theorem ns_to_clocks_floor (ns rate : Z) :
  0 <= ns <= INT_MAX -> 0 < rate -> ns * rate < 2 ^ 63 ->
  to_s64 (to_s64 ns * to_s64 rate) = ns * rate /\
  clocks_u64 ns rate = ns * rate / 1000000000 /\
  ns_to_clocks ns rate = to_s32 (ns * rate / 1000000000) /\
  (ns * rate / 1000000000 <= INT_MAX ->
   ns_to_clocks ns rate = ns * rate / 1000000000).
Proof.
  intros Hns Hrate Hprod.
  assert (Hq : clocks_u64 ns rate = ns * rate / 1000000000)
    by (apply clocks_u64_exact; lia).
  split; [apply product_s64_exact; lia|].
  split; [exact Hq|].
  unfold ns_to_clocks. rewrite Hq. split; [reflexivity|].
  unfold INT_MAX. intros Hfit. apply to_s32_small.
  assert (0 <= ns * rate / 1000000000) by (apply Z.div_pos; nia).
  lia.
Qed.

Lemma ns_to_clocks_floor_witness :
  0 <= 20000000 <= INT_MAX /\ 0 < 50000000 /\
  20000000 * 50000000 < 2 ^ 63 /\
  ns_to_clocks 20000000 50000000 = 20000000 * 50000000 / 1000000000.
Proof.
  assert (H1 : 0 <= 20000000 <= INT_MAX) by (unfold INT_MAX; lia).
  assert (H2 : 0 < 50000000) by lia.
  assert (H3 : 20000000 * 50000000 < 2 ^ 63) by (vm_compute; reflexivity).
  split; [exact H1|]. split; [exact H2|]. split; [exact H3|].
  destruct (ns_to_clocks_floor 20000000 50000000 H1 H2 H3) as [_ [_ [_ Hfit]]].
  apply Hfit. vm_compute. discriminate.
Defined.

(** C2 (as stated) fails: at [period_ns = INT_MAX] and a 2 GHz clock the
    64-bit quotient is the floor, 4294967294, but the [int] that receives it
    holds -2. *)
Lemma ns_to_clocks_truncated :
  0 <= 2147483647 /\ 0 < 2000000000 /\
  clocks_u64 2147483647 2000000000 = 2147483647 * 2000000000 / 1000000000 /\
  ns_to_clocks 2147483647 2000000000 = -2 /\
  ns_to_clocks 2147483647 2000000000 <>
    2147483647 * 2000000000 / 1000000000.
Proof.
  split; [lia|]. split; [lia|]. split; [vm_compute; reflexivity|].
  split; [vm_compute; reflexivity|]. vm_compute. discriminate.
Qed.

(** Where [unsigned long] has 64 bits a rate of [2^34] is representable,
    and with it the product of line 160 itself wraps: the bound on the
    product in [ns_to_clocks_floor] cannot be dropped. *)
Lemma clocks_u64_wraps :
  0 <= 2147483647 <= INT_MAX /\ 0 < 2 ^ 34 < 2 ^ 64 /\
  clocks_u64 2147483647 (2 ^ 34) <> 2147483647 * 2 ^ 34 / 1000000000.
Proof.
  split; [unfold INT_MAX; lia|]. split; [split; reflexivity|].
  vm_compute. discriminate.
Qed.

(** ** The clock and the early exits of [cadence_pwm_config] *)

Lemma clk_prepare_enable_fails (s : cadence_pwm_chip) (c : nat) :
  clk_errno (clocks s c) <> 0 ->
  clk_prepare_enable c s = (clk_errno (clocks s c), s).
Proof.
  intros H. unfold clk_prepare_enable.
  destruct (Z.eqb_spec (clk_errno (clocks s c)) 0) as [E|E];
    [contradiction|reflexivity].
Qed.

Lemma clk_prepare_enable_ret (s : cadence_pwm_chip) (c : nat) :
  fst (clk_prepare_enable c s) = clk_errno (clocks s c).
Proof.
  unfold clk_prepare_enable.
  destruct (Z.eqb_spec (clk_errno (clocks s c)) 0) as [E|E];
    cbn [fst]; congruence.
Qed.

Lemma clk_prepare_enable_regs (s : cadence_pwm_chip) (c : nat) :
  let s' := snd (clk_prepare_enable c s) in
  mmio s' = mmio s /\ dev_dbg s' = dev_dbg s /\ pwms s' = pwms s.
Proof.
  unfold clk_prepare_enable.
  destruct (clk_errno (clocks s c) =? 0); cbn; repeat split.
Qed.

Lemma clk_prepare_enable_counts (s : cadence_pwm_chip) (c : nat) :
  clk_errno (clocks s c) = 0 ->
  let core' := clocks (snd (clk_prepare_enable c s)) c in
  clk_prepare_count core' = S (clk_prepare_count (clocks s c)) /\
  clk_enable_count core' = S (clk_enable_count (clocks s c)) /\
  clk_rate core' = clk_rate (clocks s c).
Proof.
  intros H. unfold clk_prepare_enable. rewrite H.
  cbn [Z.eqb snd set_clocks clocks]. rewrite Nat.eqb_refl.
  cbn. repeat split.
Qed.

Lemma cadence_pwm_config_clk_fail (s : cadence_pwm_chip) (h duty_ns period_ns : Z) :
  clk_errno (clocks s (clk (pwms s h))) <> 0 ->
  cadence_pwm_config s h duty_ns period_ns
  = (clk_errno (clocks s (clk (pwms s h))), s).
Proof.
  intros H. unfold cadence_pwm_config.
  rewrite clk_prepare_enable_fails by exact H.
  destruct (Z.eqb_spec (clk_errno (clocks s (clk (pwms s h)))) 0) as [E|E];
    [contradiction|reflexivity].
Qed.

Lemma cadence_pwm_config_einval (s : cadence_pwm_chip) (h duty_ns period_ns : Z) :
  clk_errno (clocks s (clk (pwms s h))) = 0 -> period_ns < 0 ->
  cadence_pwm_config s h duty_ns period_ns
  = (- EINVAL, snd (clk_prepare_enable (clk (pwms s h)) s)).
Proof.
  intros H Hneg. unfold cadence_pwm_config, clk_prepare_enable.
  rewrite H. cbn [Z.eqb negb snd].
  destruct (Z.ltb_spec period_ns 0); [reflexivity|lia].
Qed.

(** C4. When the channel's clock fails to prepare/enable,
    [cadence_pwm_config] returns the clock's error whatever its arguments,
    and leaves the whole state, every register included, as it found it. *)
Theorem config_clock_unavailable
  (s : cadence_pwm_chip) (h duty_ns period_ns ret : Z) :
  fst (clk_prepare_enable (clk (pwms s h)) s) = ret -> ret <> 0 ->
  cadence_pwm_config s h duty_ns period_ns = (ret, s) /\
  (forall pwm reg,
      reg_value (snd (cadence_pwm_config s h duty_ns period_ns)) pwm reg
      = reg_value s pwm reg) /\
  dev_dbg (snd (cadence_pwm_config s h duty_ns period_ns)) = dev_dbg s.
Proof.
  intros Hret Hnz. rewrite clk_prepare_enable_ret in Hret. subst ret.
  rewrite cadence_pwm_config_clk_fail by exact Hnz.
  repeat split.
Qed.

Lemma config_clock_unavailable_witness :
  fst (clk_prepare_enable (clk (pwms (reset_chip 50000000 (-110)) 1))
                          (reset_chip 50000000 (-110))) = -110 /\
  -110 <> 0 /\
  cadence_pwm_config (reset_chip 50000000 (-110)) 1 1500000 20000000
  = (-110, reset_chip 50000000 (-110)).
Proof.
  assert (H1 : fst (clk_prepare_enable
                      (clk (pwms (reset_chip 50000000 (-110)) 1))
                      (reset_chip 50000000 (-110))) = -110) by reflexivity.
  assert (H2 : -110 <> 0) by discriminate.
  split; [exact H1|]. split; [exact H2|].
  exact (proj1 (config_clock_unavailable
                  (reset_chip 50000000 (-110)) 1 1500000 20000000 (-110) H1 H2)).
Defined.

(** C3 (as amended). With a negative [period_ns], [cadence_pwm_config]
    fails and writes no register: the register block and the access log are
    as before the call.  The error is [-EINVAL] when the channel's clock
    could be enabled, and the clock's own error when it could not. *)
Theorem config_negative_period
  (s : cadence_pwm_chip) (h duty_ns period_ns : Z) :
  period_ns < 0 ->
  let r := cadence_pwm_config s h duty_ns period_ns in
  fst r <> 0 /\
  mmio (snd r) = mmio s /\
  dev_dbg (snd r) = dev_dbg s /\
  (forall pwm reg, reg_value (snd r) pwm reg = reg_value s pwm reg) /\
  (clk_available s h = true -> fst r = - EINVAL) /\
  (clk_available s h = false ->
   fst r = clk_errno (clocks s (clk (pwms s h)))).
Proof.
  intros Hneg r. subst r. unfold clk_available.
  destruct (Z.eqb_spec (clk_errno (clocks s (clk (pwms s h)))) 0) as [E|E].
  - rewrite cadence_pwm_config_einval by assumption. cbn [fst snd].
    destruct (clk_prepare_enable_regs s (clk (pwms s h))) as [Hm [Hl _]].
    split; [discriminate|]. split; [exact Hm|]. split; [exact Hl|].
    split; [|split; [reflexivity|discriminate]].
    intros pwm reg. unfold reg_value, ioread32. rewrite Hm. reflexivity.
  - rewrite cadence_pwm_config_clk_fail by assumption. cbn [fst snd].
    repeat split; try assumption; try reflexivity. discriminate.
Qed.

Lemma config_negative_period_witness :
  -1 < 0 /\
  fst (cadence_pwm_config (reset_chip 50000000 0) 0 1500000 (-1)) = - EINVAL /\
  mmio (snd (cadence_pwm_config (reset_chip 50000000 0) 0 1500000 (-1)))
  = mmio (reset_chip 50000000 0).
Proof.
  assert (H : -1 < 0) by lia.
  split; [exact H|].
  destruct (config_negative_period (reset_chip 50000000 0) 0 1500000 (-1) H)
    as [_ [Hm [_ [_ [He _]]]]].
  split; [apply He; reflexivity|exact Hm].
Defined.

(** C3 (as stated) fails: with [period_ns = -1] on a channel whose clock
    reports [-110] (a timeout) the call returns that error, not [-EINVAL]. *)
Lemma config_negative_period_clock_error :
  fst (cadence_pwm_config (reset_chip 50000000 (-110)) 0 1500000 (-1)) = -110 /\
  fst (cadence_pwm_config (reset_chip 50000000 (-110)) 0 1500000 (-1))
  <> - EINVAL.
Proof. split; [reflexivity|]. vm_compute. discriminate. Qed.

(** C9. With a negative [period_ns] on a channel whose clock enables,
    [cadence_pwm_config] returns [-EINVAL] in the state
    [clk_prepare_enable] produced: the clock's prepare and enable counts are
    each one above their values before the call, so the clock stays
    prepared and enabled; no [clk_disable_unprepare] undoes it. *)
Theorem config_negative_period_keeps_clock
  (s : cadence_pwm_chip) (h duty_ns period_ns : Z) :
  period_ns < 0 -> clk_available s h = true ->
  let r := cadence_pwm_config s h duty_ns period_ns in
  let c := clk (pwms s h) in
  fst r = - EINVAL /\
  snd r = snd (clk_prepare_enable c s) /\
  clk_prepare_count (clocks (snd r) c) = S (clk_prepare_count (clocks s c)) /\
  clk_enable_count (clocks (snd r) c) = S (clk_enable_count (clocks s c)) /\
  (0 < clk_prepare_count (clocks (snd r) c))%nat /\
  (0 < clk_enable_count (clocks (snd r) c))%nat /\
  clocks (snd r) c <> clocks (clk_disable_unprepare c (snd r)) c.
Proof.
  intros Hneg Hclk r c. subst r c. unfold clk_available in Hclk.
  apply Z.eqb_eq in Hclk.
  rewrite cadence_pwm_config_einval by assumption. cbn [fst snd].
  destruct (clk_prepare_enable_counts s (clk (pwms s h)) Hclk) as [Hp [He _]].
  split; [reflexivity|]. split; [reflexivity|].
  split; [exact Hp|]. split; [exact He|].
  split; [rewrite Hp; apply Nat.lt_0_succ|].
  split; [rewrite He; apply Nat.lt_0_succ|].
  intros Heq. apply (f_equal clk_enable_count) in Heq.
  unfold clk_disable_unprepare in Heq at 1.
  cbn [set_clocks clocks] in Heq. rewrite Nat.eqb_refl in Heq.
  cbn [clk_enable_count] in Heq. rewrite He in Heq. cbn [Nat.pred] in Heq.
  exact (Nat.neq_succ_diag_l _ Heq).
Qed.

Lemma config_negative_period_keeps_clock_witness :
  -1 < 0 /\ clk_available (reset_chip 50000000 0) 0 = true /\
  fst (cadence_pwm_config (reset_chip 50000000 0) 0 1500000 (-1)) = - EINVAL /\
  clk_enable_count
    (clocks (snd (cadence_pwm_config (reset_chip 50000000 0) 0 1500000 (-1)))
            0%nat) = 1%nat.
Proof.
  assert (H1 : -1 < 0) by lia.
  assert (H2 : clk_available (reset_chip 50000000 0) 0 = true) by reflexivity.
  split; [exact H1|]. split; [exact H2|].
  destruct (config_negative_period_keeps_clock
              (reset_chip 50000000 0) 0 1500000 (-1) H1 H2)
    as [Hr [_ [_ [He _]]]].
  split; [exact Hr|exact He].
Defined.

(** ** The successful path of [cadence_pwm_config] *)

(** What each state transformer does to each component of the state. *)

Lemma pwms_cpwm_write s pwm reg value :
  pwms (cpwm_write s pwm reg value) = pwms s.
Proof. reflexivity. Qed.

Lemma clocks_cpwm_write s pwm reg value :
  clocks (cpwm_write s pwm reg value) = clocks s.
Proof. reflexivity. Qed.

Lemma mmio_cpwm_write s pwm reg value :
  mmio (cpwm_write s pwm reg value)
  = fun a => if a =? cpwm_register_address pwm reg then to_u32 value
             else mmio s a.
Proof. reflexivity. Qed.

Lemma dev_dbg_cpwm_write s pwm reg value :
  dev_dbg (cpwm_write s pwm reg value)
  = IoWrite pwm reg (to_u32 value) :: dev_dbg s.
Proof. reflexivity. Qed.

Lemma pwms_log_dev_dbg e s : pwms (log_dev_dbg e s) = pwms s.
Proof. reflexivity. Qed.

Lemma clocks_log_dev_dbg e s : clocks (log_dev_dbg e s) = clocks s.
Proof. reflexivity. Qed.

Lemma mmio_log_dev_dbg e s : mmio (log_dev_dbg e s) = mmio s.
Proof. reflexivity. Qed.

Lemma dev_dbg_log_dev_dbg e s : dev_dbg (log_dev_dbg e s) = e :: dev_dbg s.
Proof. reflexivity. Qed.

Lemma pwms_set_clocks c s : pwms (set_clocks c s) = pwms s.
Proof. reflexivity. Qed.

Lemma clocks_set_clocks c s : clocks (set_clocks c s) = c.
Proof. reflexivity. Qed.

Lemma mmio_set_clocks c s : mmio (set_clocks c s) = mmio s.
Proof. reflexivity. Qed.

Lemma dev_dbg_set_clocks c s : dev_dbg (set_clocks c s) = dev_dbg s.
Proof. reflexivity. Qed.

Create Rewrite HintDb cpwm_state.

#[local] Hint Rewrite
  pwms_cpwm_write clocks_cpwm_write mmio_cpwm_write dev_dbg_cpwm_write
  pwms_log_dev_dbg clocks_log_dev_dbg mmio_log_dev_dbg dev_dbg_log_dev_dbg
  pwms_set_clocks clocks_set_clocks mmio_set_clocks dev_dbg_set_clocks
  : cpwm_state.

Lemma cpwm_register_address_neq (h : Z) (r r' : cpwm_register) :
  r <> r' -> (cpwm_register_address h r =? cpwm_register_address h r') = false.
Proof.
  intros Hne. apply Z.eqb_neq. intros E. apply Hne.
  unfold cpwm_register_address in E.
  destruct r, r'; cbn [cpwm_register_num] in E; solve [reflexivity | lia].
Qed.

Lemma cadence_pwm_config_ok (s : cadence_pwm_chip) (h duty_ns period_ns : Z) :
  clk_errno (clocks s (clk (pwms s h))) = 0 -> 0 <= period_ns ->
  let r := cadence_pwm_config s h duty_ns period_ns in
  let cc := to_u32 (counter_ctrl_restore (reg_value s h CPWM_COUNTER_CTRL)
                                         (polarity (pwms s h))) in
  let m1 := to_u32 (match_count s h duty_ns period_ns) in
  let it := to_u32 (interval_count s h period_ns) in
  let ck := to_u32 (clk_ctrl_source
                      (clk_ctrl_prescale (reg_value s h CPWM_CLK_CTRL)
                                         (prescaler_of s h period_ns))
                      (useExternalClk (pwms s h))) in
  fst r = 0 /\
  pwms (snd r) = pwms s /\
  clocks (snd r) = clocks (snd (clk_prepare_enable (clk (pwms s h)) s)) /\
  (forall a,
      mmio (snd r) a =
      if a =? cpwm_register_address h CPWM_COUNTER_CTRL then cc
      else if a =? cpwm_register_address h CPWM_MATCH_1_COUNTER then m1
      else if a =? cpwm_register_address h CPWM_INTERVAL_COUNTER then it
      else if a =? cpwm_register_address h CPWM_CLK_CTRL then ck
      else mmio s a) /\
  dev_dbg (snd r) =
    [ IoWrite h CPWM_COUNTER_CTRL cc;
      IoWrite h CPWM_MATCH_1_COUNTER m1;
      IoWrite h CPWM_INTERVAL_COUNTER it;
      IoWrite h CPWM_CLK_CTRL ck;
      IoRead h CPWM_CLK_CTRL (reg_value s h CPWM_CLK_CTRL);
      IoWrite h CPWM_COUNTER_CTRL
        (to_u32 (Z.lor (reg_value s h CPWM_COUNTER_CTRL)
                       CPWM_COUNTER_CTRL_COUNTING_DISABLE));
      IoRead h CPWM_COUNTER_CTRL (reg_value s h CPWM_COUNTER_CTRL) ]
    ++ dev_dbg s.
Proof.
  intros Hclk Hp r cc m1 it ck. subst r cc m1 it ck.
  unfold cadence_pwm_config, clk_prepare_enable.
  rewrite Hclk. cbn [Z.eqb negb].
  destruct (Z.ltb_spec period_ns 0) as [Hlt|_]; [lia|].
  unfold cpwm_read. cbv zeta. cbn [fst snd].
  unfold match_count, interval_count, prescaler_of, duty_clocks_of,
    period_clocks_of, reg_value, clk_get_rate, ioread32.
  autorewrite with cpwm_state. cbv beta.
  rewrite !Nat.eqb_refl. cbn [clk_rate].
  rewrite (cpwm_register_address_neq h CPWM_CLK_CTRL CPWM_COUNTER_CTRL)
    by discriminate.
  split; [reflexivity|]. split; [reflexivity|]. split; [reflexivity|].
  split; [|reflexivity].
  intros a.
  destruct (a =? cpwm_register_address h CPWM_COUNTER_CTRL); reflexivity.
Qed.

Lemma to_u32_idem (z : Z) : to_u32 (to_u32 z) = to_u32 z.
Proof. unfold to_u32. apply Z.mod_mod. lia. Qed.

Lemma to_u32_range (z : Z) : 0 <= to_u32 z < 2 ^ 32.
Proof. unfold to_u32. apply Z.mod_pos_bound. lia. Qed.

Lemma to_u32_testbit (z n : Z) :
  0 <= n < 32 -> Z.testbit (to_u32 z) n = Z.testbit z n.
Proof. intros H. unfold to_u32. apply Z.mod_pow2_bits_low. lia. Qed.

Lemma to_u32_lor (a b : Z) : to_u32 (Z.lor a b) = Z.lor (to_u32 a) (to_u32 b).
Proof.
  unfold to_u32. rewrite <- !Z.land_ones by lia. apply Z.land_lor_distr_l.
Qed.

Lemma land_0xffff_range (z : Z) : 0 <= Z.land z 0xffff < 65536.
Proof.
  change 0xffff with (Z.ones 16). rewrite Z.land_ones by lia.
  change 65536 with (2 ^ 16). apply Z.mod_pos_bound. lia.
Qed.

Lemma to_u32_land_0xffff (z : Z) : to_u32 (Z.land z 0xffff) = Z.land z 0xffff.
Proof. apply to_u32_small. pose proof (land_0xffff_range z). lia. Qed.

Lemma cadence_pwm_config_ret (s : cadence_pwm_chip) (h duty_ns period_ns : Z) :
  fst (cadence_pwm_config s h duty_ns period_ns) =
  if clk_available s h then (if period_ns <? 0 then - EINVAL else 0)
  else clk_errno (clocks s (clk (pwms s h))).
Proof.
  unfold clk_available.
  destruct (Z.eqb_spec (clk_errno (clocks s (clk (pwms s h)))) 0) as [E|E].
  - destruct (Z.ltb_spec period_ns 0) as [Hn|Hn].
    + rewrite cadence_pwm_config_einval by assumption. reflexivity.
    + apply (cadence_pwm_config_ok s h duty_ns period_ns E Hn).
  - rewrite cadence_pwm_config_clk_fail by assumption. reflexivity.
Qed.

Lemma cadence_pwm_config_success (s : cadence_pwm_chip) (h duty_ns period_ns : Z) :
  fst (cadence_pwm_config s h duty_ns period_ns) = 0 <->
  clk_available s h = true /\ 0 <= period_ns.
Proof.
  rewrite cadence_pwm_config_ret.
  destruct (clk_available s h) eqn:Hclk.
  - destruct (Z.ltb_spec period_ns 0) as [Hn|Hn].
    + split; [unfold EINVAL; discriminate|intros [_ Hp]; lia].
    + split; [intros _; split; [reflexivity|exact Hn]|reflexivity].
  - unfold clk_available in Hclk. apply Z.eqb_neq in Hclk.
    split; [intros H0; contradiction|intros [Hc _]; discriminate].
Qed.

Lemma period_clocks_of_eq (s : cadence_pwm_chip) (h period_ns : Z) :
  period_clocks_of s h period_ns
  = ns_to_clocks period_ns (clk_get_rate (clk (pwms s h)) s).
Proof. unfold period_clocks_of. reflexivity. Qed.

Lemma match_count_eq (s : cadence_pwm_chip) (h duty_ns period_ns : Z) :
  match_count s h duty_ns period_ns
  = Z.land (Z.shiftr (duty_clocks_of s h duty_ns)
                     (prescaler_of s h period_ns)) 0xffff.
Proof. unfold match_count. reflexivity. Qed.

(** The registers of channel [h] after a successful call. *)
Lemma cadence_pwm_config_regs (s : cadence_pwm_chip) (h duty_ns period_ns : Z) :
  clk_available s h = true -> 0 <= period_ns ->
  let s' := snd (cadence_pwm_config s h duty_ns period_ns) in
  reg_value s' h CPWM_INTERVAL_COUNTER = interval_count s h period_ns /\
  reg_value s' h CPWM_MATCH_1_COUNTER = match_count s h duty_ns period_ns /\
  reg_value s' h CPWM_CLK_CTRL =
    to_u32 (clk_ctrl_source
              (clk_ctrl_prescale (reg_value s h CPWM_CLK_CTRL)
                                 (prescaler_of s h period_ns))
              (useExternalClk (pwms s h))) /\
  reg_value s' h CPWM_COUNTER_CTRL =
    to_u32 (counter_ctrl_restore (reg_value s h CPWM_COUNTER_CTRL)
                                 (polarity (pwms s h))).
Proof.
  intros Hclk Hp s'. subst s'. unfold clk_available in Hclk.
  apply Z.eqb_eq in Hclk.
  destruct (cadence_pwm_config_ok s h duty_ns period_ns Hclk Hp)
    as [_ [_ [_ [Hm _]]]].
  assert (Hrv : forall reg,
             reg_value (snd (cadence_pwm_config s h duty_ns period_ns)) h reg
             = to_u32 (mmio (snd (cadence_pwm_config s h duty_ns period_ns))
                            (cpwm_register_address h reg)))
    by reflexivity.
  rewrite !Hrv, !Hm, !Z.eqb_refl.
  rewrite !cpwm_register_address_neq by discriminate.
  rewrite !to_u32_idem.
  unfold interval_count, match_count. rewrite !to_u32_land_0xffff.
  repeat split.
Qed.

(** ** Bits of the control words *)

(** Succeeds on a term that mentions no variable of the context. *)
Ltac is_closed_word c :=
  match c with
  | context [?v] => is_var v; fail 1
  | _ => idtac
  end.

(** Replaces every bit of a closed word by its value. *)
Ltac eval_closed_bits :=
  repeat match goal with
         | |- context [Z.testbit ?c ?n] =>
             is_closed_word c; is_closed_word n;
             let v := eval vm_compute in (Z.testbit c n) in
             change (Z.testbit c n) with v
         end.

(** Case analysis on the bits that remain, once the closed ones are known. *)
Ltac solve_bits :=
  rewrite ?to_u32_testbit by lia;
  repeat first [rewrite Z.lor_spec | rewrite Z.land_spec];
  eval_closed_bits;
  repeat match goal with
         | |- context [Z.testbit ?x ?n] => destruct (Z.testbit x n)
         end;
  reflexivity.

Lemma counter_ctrl_restore_bit0 (x : Z) (pol : pwm_polarity) :
  Z.testbit (to_u32 (counter_ctrl_restore x pol)) 0 = Z.testbit x 0.
Proof. unfold counter_ctrl_restore. destruct pol; solve_bits. Qed.

Lemma counter_ctrl_restore_bit5 (x : Z) (pol : pwm_polarity) :
  Z.testbit (to_u32 (counter_ctrl_restore x pol)) 5 = Z.testbit x 5.
Proof. unfold counter_ctrl_restore. destruct pol; solve_bits. Qed.

Lemma testbit_31_high (n : Z) : 5 <= n -> Z.testbit 31 n = false.
Proof. intros H. change 31 with (Z.ones 5). apply Z.ones_spec_high. lia. Qed.

(** The prescale-enable bit and the prescale-value field (bits 0 to 4) of
    the clock-control word written at line 183. *)
Lemma clk_ctrl_prescale_bits (x e : Z) (external : bool) :
  Z.land (to_u32 (clk_ctrl_source (clk_ctrl_prescale x e) external))
         (Z.lor CPWM_CLK_PRESCALE_ENABLE CPWM_CLK_PRESCALE_MASK)
  = if e =? 0 then 0
    else Z.lor CPWM_CLK_PRESCALE_ENABLE
               (Z.land (Z.shiftl (e - 1) CPWM_CLK_PRESCALE_SHIFT)
                       CPWM_CLK_PRESCALE_MASK).
Proof.
  change (Z.lor CPWM_CLK_PRESCALE_ENABLE CPWM_CLK_PRESCALE_MASK) with 31.
  apply Z.bits_inj'. intros n Hn.
  rewrite Z.land_spec.
  destruct (Z.lt_ge_cases n 5) as [Hlow|Hhigh].
  - assert (Hcase : n = 0 \/ n = 1 \/ n = 2 \/ n = 3 \/ n = 4) by lia.
    unfold clk_ctrl_source, clk_ctrl_prescale.
    destruct external, (e =? 0);
      destruct Hcase as [->|[->|[->|[->| ->]]]]; solve_bits.
  - rewrite testbit_31_high by lia. rewrite andb_false_r.
    destruct (e =? 0); [symmetry; apply Z.bits_0|].
    rewrite Z.lor_spec, Z.land_spec.
    change CPWM_CLK_PRESCALE_MASK with 30.
    change CPWM_CLK_PRESCALE_ENABLE with 1.
    replace (Z.testbit 30 n) with false.
    + replace (Z.testbit 1 n) with false; [rewrite andb_false_r; reflexivity|].
      symmetry. change 1 with (Z.ones 1). apply Z.ones_spec_high. lia.
    + symmetry. apply (Z.bits_above_log2 30 n); [lia|].
      change (Z.log2 30) with 4. lia.
Qed.

(** C5. A successful [cadence_pwm_config] leaves the counting-disabled bit
    (bit 0) and the waveform-disable bit (bit 5) of the channel's
    counter-control register as they were, so a channel that was enabled is
    still enabled, and the interval and match-1 registers hold the newly
    computed counts. *)
Theorem config_keeps_enabled
  (s : cadence_pwm_chip) (h duty_ns period_ns : Z) :
  fst (cadence_pwm_config s h duty_ns period_ns) = 0 ->
  let s' := snd (cadence_pwm_config s h duty_ns period_ns) in
  Z.testbit (reg_value s' h CPWM_COUNTER_CTRL) 0
  = Z.testbit (reg_value s h CPWM_COUNTER_CTRL) 0 /\
  Z.testbit (reg_value s' h CPWM_COUNTER_CTRL) 5
  = Z.testbit (reg_value s h CPWM_COUNTER_CTRL) 5 /\
  (channel_enabled s h = true -> channel_enabled s' h = true) /\
  reg_value s' h CPWM_INTERVAL_COUNTER = interval_count s h period_ns /\
  reg_value s' h CPWM_MATCH_1_COUNTER = match_count s h duty_ns period_ns.
Proof.
  intros Hok s'. subst s'.
  apply cadence_pwm_config_success in Hok. destruct Hok as [Hclk Hp].
  destruct (cadence_pwm_config_regs s h duty_ns period_ns Hclk Hp)
    as [Hi [Hm [_ Hc]]].
  assert (H0 : Z.testbit
                 (reg_value (snd (cadence_pwm_config s h duty_ns period_ns))
                            h CPWM_COUNTER_CTRL) 0
               = Z.testbit (reg_value s h CPWM_COUNTER_CTRL) 0)
    by (rewrite Hc; apply counter_ctrl_restore_bit0).
  assert (H5 : Z.testbit
                 (reg_value (snd (cadence_pwm_config s h duty_ns period_ns))
                            h CPWM_COUNTER_CTRL) 5
               = Z.testbit (reg_value s h CPWM_COUNTER_CTRL) 5)
    by (rewrite Hc; apply counter_ctrl_restore_bit5).
  split; [exact H0|]. split; [exact H5|]. split; [|split; assumption].
  unfold channel_enabled. rewrite H0, H5. auto.
Qed.

Lemma config_keeps_enabled_witness :
  fst (cadence_pwm_config (running_chip 50000000 2) 2 1500000 20000000) = 0 /\
  channel_enabled (running_chip 50000000 2) 2 = true /\
  channel_enabled
    (snd (cadence_pwm_config (running_chip 50000000 2) 2 1500000 20000000)) 2
  = true /\
  reg_value
    (snd (cadence_pwm_config (running_chip 50000000 2) 2 1500000 20000000))
    2 CPWM_INTERVAL_COUNTER = 62500.
Proof.
  assert (H : fst (cadence_pwm_config (running_chip 50000000 2) 2
                                      1500000 20000000) = 0)
    by (vm_compute; reflexivity).
  assert (He : channel_enabled (running_chip 50000000 2) 2 = true)
    by (vm_compute; reflexivity).
  split; [exact H|]. split; [exact He|].
  destruct (config_keeps_enabled (running_chip 50000000 2) 2
                                 1500000 20000000 H)
    as [_ [_ [Hen [Hi _]]]].
  split; [exact (Hen He)|]. rewrite Hi. vm_compute. reflexivity.
Defined.

(** C6. On a 50 MHz clock, a period of 20 ms with a duty of 1.5 ms gives
    1000000 period clocks, 75000 duty clocks and exponent 4; the call
    succeeds, enables the prescaler with code 3, and writes 62500 to the
    interval register and 4687 to the match-1 register. *)
Theorem config_servo_scenario (s : cadence_pwm_chip) (h : Z) :
  clk_available s h = true ->
  clk_get_rate (clk (pwms s h)) s = 50000000 ->
  let r := cadence_pwm_config s h 1500000 20000000 in
  period_clocks_of s h 20000000 = 1000000 /\
  duty_clocks_of s h 1500000 = 75000 /\
  prescaler_of s h 20000000 = 4 /\
  interval_count s h 20000000 = 62500 /\
  match_count s h 1500000 20000000 = 4687 /\
  fst r = 0 /\
  reg_value (snd r) h CPWM_INTERVAL_COUNTER = 62500 /\
  reg_value (snd r) h CPWM_MATCH_1_COUNTER = 4687 /\
  Z.land (reg_value (snd r) h CPWM_CLK_CTRL)
         (Z.lor CPWM_CLK_PRESCALE_ENABLE CPWM_CLK_PRESCALE_MASK)
  = Z.lor CPWM_CLK_PRESCALE_ENABLE (Z.shiftl 3 CPWM_CLK_PRESCALE_SHIFT) /\
  In (IoWrite h CPWM_INTERVAL_COUNTER 62500) (dev_dbg (snd r)) /\
  In (IoWrite h CPWM_MATCH_1_COUNTER 4687) (dev_dbg (snd r)).
Proof.
  intros Hclk Hrate r. subst r.
  assert (Hpc : period_clocks_of s h 20000000 = 1000000)
    by (unfold period_clocks_of; rewrite Hrate; reflexivity).
  assert (Hdc : duty_clocks_of s h 1500000 = 75000)
    by (unfold duty_clocks_of; rewrite Hrate; reflexivity).
  assert (Hpre : prescaler_of s h 20000000 = 4)
    by (unfold prescaler_of; rewrite Hpc; reflexivity).
  assert (Hic : interval_count s h 20000000 = 62500)
    by (unfold interval_count; rewrite Hpc, Hpre; reflexivity).
  assert (Hmc : match_count s h 1500000 20000000 = 4687)
    by (unfold match_count; rewrite Hdc, Hpre; reflexivity).
  assert (Hp : 0 <= 20000000) by lia.
  destruct (cadence_pwm_config_regs s h 1500000 20000000 Hclk Hp)
    as [Hi [Hm [Hc _]]].
  assert (Hclk' := Hclk). unfold clk_available in Hclk'.
  apply Z.eqb_eq in Hclk'.
  destruct (cadence_pwm_config_ok s h 1500000 20000000 Hclk' Hp)
    as [Hret [_ [_ [_ Hlog]]]].
  rewrite Hic, Hmc in Hlog.
  repeat split; try assumption; try congruence.
  - rewrite Hc, clk_ctrl_prescale_bits, Hpre. reflexivity.
  - rewrite Hlog. cbn [app]. right. right. left. reflexivity.
  - rewrite Hlog. cbn [app]. right. left. reflexivity.
Qed.

Lemma config_servo_scenario_witness :
  clk_available (reset_chip 50000000 0) 0 = true /\
  clk_get_rate (clk (pwms (reset_chip 50000000 0) 0))
               (reset_chip 50000000 0) = 50000000 /\
  reg_value (snd (cadence_pwm_config (reset_chip 50000000 0) 0
                                     1500000 20000000))
            0 CPWM_INTERVAL_COUNTER = 62500 /\
  reg_value (snd (cadence_pwm_config (reset_chip 50000000 0) 0
                                     1500000 20000000))
            0 CPWM_MATCH_1_COUNTER = 4687.
Proof.
  assert (H1 : clk_available (reset_chip 50000000 0) 0 = true) by reflexivity.
  assert (H2 : clk_get_rate (clk (pwms (reset_chip 50000000 0) 0))
                            (reset_chip 50000000 0) = 50000000)
    by reflexivity.
  split; [exact H1|]. split; [exact H2|].
  destruct (config_servo_scenario (reset_chip 50000000 0) 0 H1 H2)
    as [_ [_ [_ [_ [_ [_ [Hi [Hm _]]]]]]]].
  split; [exact Hi|exact Hm].
Defined.

Lemma cadence_prescaler_small (p : Z) :
  0 <= p <= 65535 -> cadence_prescaler p = 0.
Proof.
  intros H. destruct (Z.eq_dec p 0) as [->|Hnz]; [reflexivity|].
  rewrite cadence_prescaler_log2 by (unfold INT_MAX; lia).
  assert (Z.log2 p < 16) by (apply Z.log2_lt_pow2; lia).
  lia.
Qed.

Lemma land_0xffff_small (p : Z) : 0 <= p <= 65535 -> Z.land p 0xffff = p.
Proof.
  intros H. change 0xffff with (Z.ones 16). rewrite Z.land_ones by lia.
  apply Z.mod_small. change (2 ^ 16) with 65536. lia.
Qed.

Lemma ns_to_clocks_small (ns rate : Z) :
  0 <= ns -> 0 <= rate -> ns * rate / 1000000000 <= 65535 ->
  ns_to_clocks ns rate = ns * rate / 1000000000 /\
  0 <= ns_to_clocks ns rate <= 65535.
Proof.
  intros Hns Hrate Hq.
  assert (Hprod : 0 <= ns * rate) by nia.
  assert (Hup : ns * rate < 1000000000 * Z.succ (ns * rate / 1000000000))
    by (apply Z.mul_succ_div_gt; lia).
  assert (Hq0 : 0 <= ns * rate / 1000000000) by (apply Z.div_pos; lia).
  unfold ns_to_clocks. rewrite clocks_u64_exact by lia.
  rewrite to_s32_small by lia. lia.
Qed.

(** C7. When [floor (period_ns * rate / 1000000000)] is at most 65535,
    [cadence_pwm_config] computes exactly that many period clocks, selects
    exponent 0, clears the prescale-enable bit and the prescale-value field
    of the clock-control register, and writes the period clocks unchanged
    to the interval register. *)
Theorem config_zero_prescaler
  (s : cadence_pwm_chip) (h duty_ns period_ns : Z) :
  clk_available s h = true ->
  0 <= period_ns ->
  0 <= clk_get_rate (clk (pwms s h)) s ->
  period_ns * clk_get_rate (clk (pwms s h)) s / 1000000000 <= 65535 ->
  let r := cadence_pwm_config s h duty_ns period_ns in
  period_clocks_of s h period_ns
  = period_ns * clk_get_rate (clk (pwms s h)) s / 1000000000 /\
  prescaler_of s h period_ns = 0 /\
  fst r = 0 /\
  Z.land (reg_value (snd r) h CPWM_CLK_CTRL)
         (Z.lor CPWM_CLK_PRESCALE_ENABLE CPWM_CLK_PRESCALE_MASK) = 0 /\
  reg_value (snd r) h CPWM_INTERVAL_COUNTER = period_clocks_of s h period_ns.
Proof.
  intros Hclk Hp Hrate Hq r. subst r.
  destruct (ns_to_clocks_small period_ns _ Hp Hrate Hq) as [Hfloor Hrange].
  rewrite <- period_clocks_of_eq in Hfloor, Hrange.
  assert (Hpre : prescaler_of s h period_ns = 0)
    by (apply cadence_prescaler_small; exact Hrange).
  destruct (cadence_pwm_config_regs s h duty_ns period_ns Hclk Hp)
    as [Hi [_ [Hc _]]].
  split; [exact Hfloor|]. split; [exact Hpre|].
  split; [apply cadence_pwm_config_success; split; assumption|].
  split.
  - rewrite Hc, clk_ctrl_prescale_bits, Hpre. reflexivity.
  - rewrite Hi. unfold interval_count. rewrite Hpre, Z.shiftr_0_r.
    apply land_0xffff_small. exact Hrange.
Qed.

Lemma config_zero_prescaler_witness :
  clk_available (reset_chip 50000000 0) 1 = true /\
  0 <= 1000000 /\
  0 <= clk_get_rate (clk (pwms (reset_chip 50000000 0) 1))
                    (reset_chip 50000000 0) /\
  1000000 * clk_get_rate (clk (pwms (reset_chip 50000000 0) 1))
                         (reset_chip 50000000 0) / 1000000000 <= 65535 /\
  prescaler_of (reset_chip 50000000 0) 1 1000000 = 0 /\
  reg_value (snd (cadence_pwm_config (reset_chip 50000000 0) 1 250000 1000000))
            1 CPWM_INTERVAL_COUNTER = 50000.
Proof.
  assert (H1 : clk_available (reset_chip 50000000 0) 1 = true) by reflexivity.
  assert (H2 : 0 <= 1000000) by lia.
  assert (H3 : 0 <= clk_get_rate (clk (pwms (reset_chip 50000000 0) 1))
                                 (reset_chip 50000000 0))
    by (vm_compute; discriminate).
  assert (H4 : 1000000 * clk_get_rate (clk (pwms (reset_chip 50000000 0) 1))
                                      (reset_chip 50000000 0) / 1000000000
               <= 65535)
    by (vm_compute; discriminate).
  split; [exact H1|]. split; [exact H2|]. split; [exact H3|].
  split; [exact H4|].
  destruct (config_zero_prescaler (reset_chip 50000000 0) 1 250000 1000000
                                  H1 H2 H3 H4)
    as [Hpc [Hpre [_ [_ Hi]]]].
  split; [exact Hpre|]. rewrite Hi, Hpc. reflexivity.
Defined.

(** ** [cadence_pwm_disable] *)

Lemma cadence_pwm_disable_mmio (s : cadence_pwm_chip) (h a : Z) :
  mmio (cadence_pwm_disable s h) a =
  if a =? cpwm_register_address h CPWM_COUNTER_CTRL
  then Z.lor (reg_value s h CPWM_COUNTER_CTRL)
             (Z.lor CPWM_COUNTER_CTRL_COUNTING_DISABLE
                    CPWM_COUNTER_CTRL_WAVE_DISABLE)
  else mmio s a.
Proof.
  unfold cadence_pwm_disable, cpwm_read, cpwm_write, iowrite32,
    clk_disable_unprepare, log_dev_dbg, set_mmio, set_clocks.
  cbn [mmio pwms clocks dev_dbg].
  rewrite to_u32_lor.
  fold (reg_value s h CPWM_COUNTER_CTRL).
  unfold reg_value, ioread32. rewrite to_u32_idem. reflexivity.
Qed.

Lemma cadence_pwm_disable_reg (s : cadence_pwm_chip) (h : Z) :
  reg_value (cadence_pwm_disable s h) h CPWM_COUNTER_CTRL
  = Z.lor (reg_value s h CPWM_COUNTER_CTRL)
          (Z.lor CPWM_COUNTER_CTRL_COUNTING_DISABLE
                 CPWM_COUNTER_CTRL_WAVE_DISABLE).
Proof.
  unfold reg_value at 1. unfold ioread32.
  rewrite cadence_pwm_disable_mmio, Z.eqb_refl.
  rewrite to_u32_lor. unfold reg_value, ioread32. rewrite to_u32_idem.
  reflexivity.
Qed.

(** C8. Disabling a channel twice leaves the register block exactly as
    disabling it once does.  One call sets the counting-disabled and
    waveform-disable bits of the channel's counter-control register, keeps
    its other bits, and touches no other register. *)
Theorem disable_idempotent (s : cadence_pwm_chip) (h : Z) :
  (forall a,
      mmio (cadence_pwm_disable (cadence_pwm_disable s h) h) a
      = mmio (cadence_pwm_disable s h) a) /\
  (forall pwm reg,
      reg_value (cadence_pwm_disable (cadence_pwm_disable s h) h) pwm reg
      = reg_value (cadence_pwm_disable s h) pwm reg) /\
  Z.testbit (reg_value (cadence_pwm_disable s h) h CPWM_COUNTER_CTRL) 0 = true /\
  Z.testbit (reg_value (cadence_pwm_disable s h) h CPWM_COUNTER_CTRL) 5 = true /\
  (forall n, n <> 0 -> n <> 5 ->
      Z.testbit (reg_value (cadence_pwm_disable s h) h CPWM_COUNTER_CTRL) n
      = Z.testbit (reg_value s h CPWM_COUNTER_CTRL) n) /\
  (forall a, a <> cpwm_register_address h CPWM_COUNTER_CTRL ->
      mmio (cadence_pwm_disable s h) a = mmio s a).
Proof.
  assert (Htwice : forall a,
             mmio (cadence_pwm_disable (cadence_pwm_disable s h) h) a
             = mmio (cadence_pwm_disable s h) a).
  { intros a. rewrite (cadence_pwm_disable_mmio (cadence_pwm_disable s h)).
    destruct (Z.eqb_spec a (cpwm_register_address h CPWM_COUNTER_CTRL))
      as [->|Hne]; [|reflexivity].
    rewrite cadence_pwm_disable_reg, cadence_pwm_disable_mmio, Z.eqb_refl.
    rewrite <- Z.lor_assoc, Z.lor_diag. reflexivity. }
  split; [exact Htwice|]. split; [|split; [|split; [|split]]].
  - intros pwm reg. unfold reg_value, ioread32. rewrite Htwice. reflexivity.
  - rewrite cadence_pwm_disable_reg, Z.lor_spec. apply orb_true_r.
  - rewrite cadence_pwm_disable_reg, Z.lor_spec. apply orb_true_r.
  - intros n Hn0 Hn5. rewrite cadence_pwm_disable_reg, Z.lor_spec.
    replace (Z.testbit (Z.lor CPWM_COUNTER_CTRL_COUNTING_DISABLE
                              CPWM_COUNTER_CTRL_WAVE_DISABLE) n) with false;
      [apply orb_false_r|].
    symmetry. change (Z.lor CPWM_COUNTER_CTRL_COUNTING_DISABLE
                            CPWM_COUNTER_CTRL_WAVE_DISABLE) with 33.
    destruct (Z.lt_ge_cases n 0) as [Hneg|Hpos];
      [apply Z.testbit_neg_r; exact Hneg|].
    destruct (Z.lt_ge_cases n 6) as [Hlow|Hhigh].
    + assert (Hcase : n = 1 \/ n = 2 \/ n = 3 \/ n = 4) by lia.
      destruct Hcase as [->|[->|[->| ->]]]; reflexivity.
    + apply (Z.bits_above_log2 33 n); [lia|]. change (Z.log2 33) with 5. lia.
  - intros a Hne. rewrite cadence_pwm_disable_mmio.
    destruct (Z.eqb_spec a (cpwm_register_address h CPWM_COUNTER_CTRL));
      [contradiction|reflexivity].
Qed.

Lemma disable_idempotent_witness :
  reg_value (cadence_pwm_disable
               (cadence_pwm_disable (running_chip 50000000 1) 1) 1)
            1 CPWM_COUNTER_CTRL
  = reg_value (cadence_pwm_disable (running_chip 50000000 1) 1)
              1 CPWM_COUNTER_CTRL /\
  reg_value (cadence_pwm_disable (running_chip 50000000 1) 1)
            1 CPWM_COUNTER_CTRL = 0x6b.
Proof.
  split.
  - exact (proj1 (proj2 (disable_idempotent (running_chip 50000000 1) 1))
                 1 CPWM_COUNTER_CTRL).
  - reflexivity.
Defined.

(** C10. [cadence_pwm_config] never compares [duty_ns] with [period_ns]:
    whatever [duty_ns] is, the call succeeds as soon as the clock enables
    and [period_ns] is not negative, and it writes
    [(duty_clocks >> prescaler) & 0xffff] to the match-1 register; a
    failure has no cause but the clock or a negative period.  The last part
    exhibits a call that succeeds with a match count above the interval
    count. *)
Theorem config_no_duty_validation :
  (forall (s : cadence_pwm_chip) (h duty_ns period_ns : Z),
      let r := cadence_pwm_config s h duty_ns period_ns in
      (clk_available s h = true -> 0 <= period_ns ->
       fst r = 0 /\
       reg_value (snd r) h CPWM_MATCH_1_COUNTER
       = Z.land (Z.shiftr (duty_clocks_of s h duty_ns)
                          (prescaler_of s h period_ns)) 0xffff /\
       In (IoWrite h CPWM_MATCH_1_COUNTER
                   (Z.land (Z.shiftr (duty_clocks_of s h duty_ns)
                                     (prescaler_of s h period_ns)) 0xffff))
          (dev_dbg (snd r))) /\
      (fst r <> 0 -> clk_available s h = false \/ period_ns < 0)) /\
  (let r := cadence_pwm_config (reset_chip 50000000 0) 0 20480000 20000000 in
   20480000 > 20000000 /\
   fst r = 0 /\
   reg_value (snd r) 0 CPWM_INTERVAL_COUNTER = 62500 /\
   reg_value (snd r) 0 CPWM_MATCH_1_COUNTER = 64000).
Proof.
  split.
  - intros s h duty_ns period_ns r. subst r.
    rewrite <- !match_count_eq. split.
    + intros Hclk Hp.
      destruct (cadence_pwm_config_regs s h duty_ns period_ns Hclk Hp)
        as [_ [Hm _]].
      assert (Hclk' := Hclk). unfold clk_available in Hclk'.
      apply Z.eqb_eq in Hclk'.
      destruct (cadence_pwm_config_ok s h duty_ns period_ns Hclk' Hp)
        as [Hret [_ [_ [_ Hlog]]]].
      split; [exact Hret|]. split; [exact Hm|].
      rewrite Hlog, match_count_eq, to_u32_land_0xffff.
      right. left. reflexivity.
    + intros Hfail.
      destruct (clk_available s h) eqn:Hclk; [right|left; reflexivity].
      destruct (Z.lt_ge_cases period_ns 0) as [Hn|Hn]; [exact Hn|].
      exfalso. apply Hfail. apply cadence_pwm_config_success.
      split; assumption.
  - cbv zeta. split; [lia|]. repeat split; vm_compute; reflexivity.
Qed.

Lemma config_no_duty_validation_witness :
  clk_available (reset_chip 50000000 0) 0 = true /\
  0 <= 20000000 /\
  fst (cadence_pwm_config (reset_chip 50000000 0) 0 30000000 20000000) = 0 /\
  reg_value (snd (cadence_pwm_config (reset_chip 50000000 0) 0
                                     30000000 20000000))
            0 CPWM_MATCH_1_COUNTER = 28214.
Proof.
  assert (H1 : clk_available (reset_chip 50000000 0) 0 = true) by reflexivity.
  assert (H2 : 0 <= 20000000) by lia.
  split; [exact H1|]. split; [exact H2|].
  destruct (proj1 (proj1 config_no_duty_validation
                         (reset_chip 50000000 0) 0 30000000 20000000) H1 H2)
    as [Hret [Hm _]].
  split; [exact Hret|]. rewrite Hm. vm_compute. reflexivity.
Defined.

(** ** The register map *)

Lemma cpwm_register_num_inj (r r' : cpwm_register) :
  cpwm_register_num r = cpwm_register_num r' -> r = r'.
Proof. destruct r, r'; cbn [cpwm_register_num]; intros E; solve [reflexivity | discriminate E]. Qed.

Lemma cpwm_register_num_range (r : cpwm_register) :
  0 <= cpwm_register_num r <= 10.
Proof. destruct r; cbn [cpwm_register_num]; lia. Qed.

Lemma cpwm_register_address_inj (h h' : Z) (r r' : cpwm_register) :
  valid_hwpwm h -> valid_hwpwm h' ->
  cpwm_register_address h r = cpwm_register_address h' r' ->
  h = h' /\ r = r'.
Proof.
  unfold valid_hwpwm, CPWM_NUM_PWM, cpwm_register_address.
  intros Hh Hh' E.
  assert (Hn : cpwm_register_num r = cpwm_register_num r') by lia.
  split; [lia|apply cpwm_register_num_inj; exact Hn].
Qed.

(** X1. On the channels the driver serves, the addressing of lines 102-107
    never maps two different (channel, register) pairs to one offset; every
    offset is word-aligned and lies inside the 33-word register block. *)
Theorem register_map_no_alias (h h' : Z) (r r' : cpwm_register) :
  valid_hwpwm h -> valid_hwpwm h' ->
  (cpwm_register_address h r = cpwm_register_address h' r'
   <-> h = h' /\ r = r') /\
  0 <= cpwm_register_address h r < 4 * (11 * CPWM_NUM_PWM) /\
  cpwm_register_address h r mod 4 = 0.
Proof.
  intros Hh Hh'. split; [split|].
  - apply cpwm_register_address_inj; assumption.
  - intros [-> ->]. reflexivity.
  - pose proof (cpwm_register_num_range r) as Hr.
    unfold valid_hwpwm, CPWM_NUM_PWM in *. unfold cpwm_register_address.
    split; [lia|].
    rewrite Z.mul_comm. apply Z.mod_mul. lia.
Qed.

Lemma register_map_no_alias_witness :
  valid_hwpwm 0 /\ valid_hwpwm 2 /\
  (cpwm_register_address 0 CPWM_COUNTER_CTRL
   = cpwm_register_address 2 CPWM_CLK_CTRL
   <-> 0 = 2 /\ CPWM_COUNTER_CTRL = CPWM_CLK_CTRL).
Proof.
  assert (H0 : valid_hwpwm 0) by (unfold valid_hwpwm, CPWM_NUM_PWM; lia).
  assert (H2 : valid_hwpwm 2) by (unfold valid_hwpwm, CPWM_NUM_PWM; lia).
  split; [exact H0|]. split; [exact H2|].
  exact (proj1 (register_map_no_alias 0 2 CPWM_COUNTER_CTRL CPWM_CLK_CTRL
                                      H0 H2)).
Defined.

(** Past the last channel the map does alias: index 3 of the clock-control
    bank is channel 0 of the counter-control bank. *)
Lemma register_map_alias_outside :
  cpwm_register_address 3 CPWM_CLK_CTRL
  = cpwm_register_address 0 CPWM_COUNTER_CTRL.
Proof. reflexivity. Qed.

(** ** [cadence_pwm_enable] *)

(** Two words are equal when their bits are; below bit 32 the conversion
    to [u32] is transparent, above it both sides are 0. *)
Ltac u32_bits :=
  apply Z.bits_inj'; intros ?n ?Hn;
  match goal with
  | n : Z |- _ =>
      destruct (Z.lt_ge_cases n 32);
      [ repeat first [ rewrite to_u32_testbit by lia
                     | rewrite Z.lor_spec
                     | rewrite Z.land_spec ];
        repeat match goal with
               | |- context [Z.testbit ?x n] => destruct (Z.testbit x n)
               end;
        reflexivity
      | unfold to_u32; rewrite !Z.mod_pow2_bits_high by lia; reflexivity ]
  end.

Lemma cadence_pwm_enable_clk_fail (s : cadence_pwm_chip) (h : Z) :
  clk_errno (clocks s (clk (pwms s h))) <> 0 ->
  cadence_pwm_enable s h = (clk_errno (clocks s (clk (pwms s h))), s).
Proof.
  intros H. unfold cadence_pwm_enable.
  rewrite clk_prepare_enable_fails by exact H.
  destruct (Z.eqb_spec (clk_errno (clocks s (clk (pwms s h)))) 0) as [E|E];
    [contradiction|reflexivity].
Qed.

Lemma cadence_pwm_enable_ok (s : cadence_pwm_chip) (h : Z) :
  clk_errno (clocks s (clk (pwms s h))) = 0 ->
  let r := cadence_pwm_enable s h in
  let x := to_u32 (Z.lor (Z.land (reg_value s h CPWM_COUNTER_CTRL)
                                 (not_u32 (Z.lor CPWM_COUNTER_CTRL_COUNTING_DISABLE
                                                 CPWM_COUNTER_CTRL_WAVE_DISABLE)))
                         CPWM_COUNTER_CTRL_RESET) in
  fst r = 0 /\
  pwms (snd r) = pwms s /\
  clocks (snd r) = clocks (snd (clk_prepare_enable (clk (pwms s h)) s)) /\
  (forall a,
      mmio (snd r) a =
      if a =? cpwm_register_address h CPWM_COUNTER_CTRL then x
      else mmio s a) /\
  dev_dbg (snd r) =
    [ IoWrite h CPWM_COUNTER_CTRL x;
      IoRead h CPWM_COUNTER_CTRL (reg_value s h CPWM_COUNTER_CTRL) ]
    ++ dev_dbg s.
Proof.
  intros Hclk r x. subst r x.
  unfold cadence_pwm_enable, clk_prepare_enable.
  rewrite Hclk. cbn [Z.eqb negb].
  unfold cpwm_read. cbv zeta. cbn [fst snd].
  unfold reg_value, ioread32.
  autorewrite with cpwm_state. cbv beta.
  repeat split.
Qed.

Lemma cadence_pwm_enable_ret (s : cadence_pwm_chip) (h : Z) :
  fst (cadence_pwm_enable s h) = clk_errno (clocks s (clk (pwms s h))).
Proof.
  destruct (Z.eq_dec (clk_errno (clocks s (clk (pwms s h)))) 0) as [E|E].
  - rewrite E. apply (cadence_pwm_enable_ok s h E).
  - rewrite cadence_pwm_enable_clk_fail by exact E. reflexivity.
Qed.

Lemma testbit_not_u32 (z n : Z) :
  0 <= n < 32 -> Z.testbit (not_u32 z) n = negb (Z.testbit z n).
Proof.
  intros H. unfold not_u32. rewrite to_u32_testbit by exact H.
  apply Z.lnot_spec. lia.
Qed.

Lemma testbit_above (c k n : Z) :
  0 <= c < 2 ^ k -> k <= n -> Z.testbit c n = false.
Proof.
  intros Hc Hk. destruct (Z.eq_dec c 0) as [->|Hnz]; [apply Z.bits_0|].
  apply Z.bits_above_log2; [lia|].
  assert (0 < k).
  { destruct (Z.lt_ge_cases 0 k) as [Hp|Hn]; [exact Hp|].
    assert (2 ^ k <= 1).
    { destruct (Z.eq_dec k 0) as [->|Hk0]; [reflexivity|].
      rewrite Z.pow_neg_r by lia. lia. }
    lia. }
  assert (Z.log2 c < k) by (apply Z.log2_lt_pow2; lia). lia.
Qed.

Lemma reg_value_testbit_high (s : cadence_pwm_chip) (pwm : Z)
  (reg : cpwm_register) (n : Z) :
  32 <= n -> Z.testbit (reg_value s pwm reg) n = false.
Proof.
  intros H. unfold reg_value, ioread32, to_u32.
  apply Z.mod_pow2_bits_high. lia.
Qed.

(** The bits of the word [cadence_pwm_enable] writes (lines 246-248). *)
Lemma enable_word_testbit (x n : Z) :
  0 <= n < 32 ->
  Z.testbit
    (to_u32 (Z.lor (Z.land x (not_u32 (Z.lor CPWM_COUNTER_CTRL_COUNTING_DISABLE
                                             CPWM_COUNTER_CTRL_WAVE_DISABLE)))
                   CPWM_COUNTER_CTRL_RESET)) n
  = if (0 =? n) || (5 =? n) then false
    else if 4 =? n then true else Z.testbit x n.
Proof.
  intros Hn. rewrite to_u32_testbit by exact Hn.
  rewrite Z.lor_spec, Z.land_spec, testbit_not_u32 by exact Hn.
  rewrite Z.lor_spec.
  change CPWM_COUNTER_CTRL_COUNTING_DISABLE with (2 ^ 0).
  change CPWM_COUNTER_CTRL_WAVE_DISABLE with (2 ^ 5).
  change CPWM_COUNTER_CTRL_RESET with (2 ^ 4).
  rewrite !Z.pow2_bits_eqb by lia.
  destruct (Z.eqb_spec 0 n), (Z.eqb_spec 5 n), (Z.eqb_spec 4 n);
    try lia; cbn [orb negb andb];
    rewrite ?andb_true_r, ?andb_false_r, ?orb_false_r, ?orb_true_r;
    reflexivity.
Qed.

Lemma cadence_pwm_enable_reg (s : cadence_pwm_chip) (h : Z) :
  clk_errno (clocks s (clk (pwms s h))) = 0 ->
  reg_value (snd (cadence_pwm_enable s h)) h CPWM_COUNTER_CTRL
  = to_u32 (Z.lor
              (Z.land (reg_value s h CPWM_COUNTER_CTRL)
                 (not_u32 (Z.lor CPWM_COUNTER_CTRL_COUNTING_DISABLE
                                 CPWM_COUNTER_CTRL_WAVE_DISABLE)))
              CPWM_COUNTER_CTRL_RESET).
Proof.
  intros E. destruct (cadence_pwm_enable_ok s h E) as [_ [_ [_ [Hm _]]]].
  unfold reg_value at 1. unfold ioread32. rewrite Hm, Z.eqb_refl.
  apply to_u32_idem.
Qed.

Lemma cadence_pwm_enable_enabled (s : cadence_pwm_chip) (h : Z) :
  clk_errno (clocks s (clk (pwms s h))) = 0 ->
  channel_enabled (snd (cadence_pwm_enable s h)) h = true.
Proof.
  intros E. unfold channel_enabled.
  rewrite cadence_pwm_enable_reg, !enable_word_testbit by (exact E || lia).
  reflexivity.
Qed.

(** X2. [cadence_pwm_enable] returns what the clock's prepare/enable
    returned; when that is an error no register is read or written and the
    state is the one before the call. *)
Theorem enable_clock_unavailable (s : cadence_pwm_chip) (h ret : Z) :
  fst (clk_prepare_enable (clk (pwms s h)) s) = ret -> ret <> 0 ->
  cadence_pwm_enable s h = (ret, s).
Proof.
  intros Hret Hnz. rewrite clk_prepare_enable_ret in Hret. subst ret.
  apply cadence_pwm_enable_clk_fail. exact Hnz.
Qed.

Lemma enable_clock_unavailable_witness :
  fst (clk_prepare_enable (clk (pwms (reset_chip 50000000 (-110)) 2))
                          (reset_chip 50000000 (-110))) = -110 /\
  -110 <> 0 /\
  cadence_pwm_enable (reset_chip 50000000 (-110)) 2
  = (-110, reset_chip 50000000 (-110)).
Proof.
  assert (H1 : fst (clk_prepare_enable
                      (clk (pwms (reset_chip 50000000 (-110)) 2))
                      (reset_chip 50000000 (-110))) = -110) by reflexivity.
  assert (H2 : -110 <> 0) by discriminate.
  split; [exact H1|]. split; [exact H2|].
  exact (enable_clock_unavailable (reset_chip 50000000 (-110)) 2 (-110) H1 H2).
Defined.

(** X3. A successful [cadence_pwm_enable] clears the counting-disabled and
    waveform-disable bits of the channel's counter-control register, sets
    its reset bit and keeps every other bit; no other offset of the
    register block changes, and the channel's clock counts go up by one. *)
Theorem enable_effect (s : cadence_pwm_chip) (h : Z) :
  fst (cadence_pwm_enable s h) = 0 ->
  let s' := snd (cadence_pwm_enable s h) in
  let c := clk (pwms s h) in
  channel_enabled s' h = true /\
  Z.testbit (reg_value s' h CPWM_COUNTER_CTRL) 4 = true /\
  (forall n, n <> 0 -> n <> 4 -> n <> 5 ->
      Z.testbit (reg_value s' h CPWM_COUNTER_CTRL) n
      = Z.testbit (reg_value s h CPWM_COUNTER_CTRL) n) /\
  (forall a, a <> cpwm_register_address h CPWM_COUNTER_CTRL ->
      mmio s' a = mmio s a) /\
  clk_prepare_count (clocks s' c) = S (clk_prepare_count (clocks s c)) /\
  clk_enable_count (clocks s' c) = S (clk_enable_count (clocks s c)).
Proof.
  intros Hok s' c. subst s' c.
  rewrite cadence_pwm_enable_ret in Hok.
  destruct (cadence_pwm_enable_ok s h Hok) as [_ [_ [Hc [Hm _]]]].
  pose proof (cadence_pwm_enable_reg s h Hok) as Hreg.
  destruct (clk_prepare_enable_counts s (clk (pwms s h)) Hok) as [Hp [He _]].
  split; [|split; [|split; [|split; [|split]]]].
  - apply cadence_pwm_enable_enabled. exact Hok.
  - rewrite Hreg, enable_word_testbit by lia. reflexivity.
  - intros n Hn0 Hn4 Hn5.
    destruct (Z.lt_ge_cases n 0) as [Hneg|Hpos];
      [rewrite !Z.testbit_neg_r by exact Hneg; reflexivity|].
    destruct (Z.lt_ge_cases n 32) as [Hlow|Hhigh];
      [|rewrite !reg_value_testbit_high by exact Hhigh; reflexivity].
    rewrite Hreg, enable_word_testbit by lia.
    destruct (Z.eqb_spec 0 n), (Z.eqb_spec 5 n), (Z.eqb_spec 4 n);
      try lia; reflexivity.
  - intros a Ha. rewrite Hm.
    destruct (Z.eqb_spec a (cpwm_register_address h CPWM_COUNTER_CTRL));
      [contradiction|reflexivity].
  - rewrite Hc. exact Hp.
  - rewrite Hc. exact He.
Qed.

Lemma enable_effect_witness :
  fst (cadence_pwm_enable (reset_chip 50000000 0) 1) = 0 /\
  channel_enabled (reset_chip 50000000 0) 1 = false /\
  channel_enabled (snd (cadence_pwm_enable (reset_chip 50000000 0) 1)) 1
  = true.
Proof.
  assert (H : fst (cadence_pwm_enable (reset_chip 50000000 0) 1) = 0)
    by reflexivity.
  split; [exact H|]. split; [reflexivity|].
  exact (proj1 (enable_effect (reset_chip 50000000 0) 1 H)).
Defined.

Lemma clk_prepare_enable_errno (s : cadence_pwm_chip) (c c' : nat) :
  clk_errno (clocks (snd (clk_prepare_enable c s)) c') = clk_errno (clocks s c').
Proof.
  unfold clk_prepare_enable.
  destruct (clk_errno (clocks s c) =? 0); cbn [snd set_clocks clocks];
    [|reflexivity].
  destruct (Nat.eqb_spec c' c) as [->|Hne]; reflexivity.
Qed.

(** X4. Enabling a channel twice leaves the register block as enabling it
    once does, whether or not the clock can be started; the clock counts
    are not idempotent, each successful call adds one. *)
Theorem enable_idempotent_registers (s : cadence_pwm_chip) (h : Z) :
  (forall a,
      mmio (snd (cadence_pwm_enable (snd (cadence_pwm_enable s h)) h)) a
      = mmio (snd (cadence_pwm_enable s h)) a) /\
  (fst (cadence_pwm_enable s h) = 0 ->
   fst (cadence_pwm_enable (snd (cadence_pwm_enable s h)) h) = 0 /\
   clk_enable_count
     (clocks (snd (cadence_pwm_enable (snd (cadence_pwm_enable s h)) h))
             (clk (pwms s h)))
   = S (S (clk_enable_count (clocks s (clk (pwms s h)))))).
Proof.
  destruct (Z.eq_dec (clk_errno (clocks s (clk (pwms s h)))) 0) as [E|E].
  - destruct (cadence_pwm_enable_ok s h E) as [_ [Hp [Hc [Hm _]]]].
    assert (E' : clk_errno (clocks (snd (cadence_pwm_enable s h))
                                   (clk (pwms (snd (cadence_pwm_enable s h)) h)))
                 = 0).
    { rewrite Hp, Hc, clk_prepare_enable_errno. exact E. }
    destruct (cadence_pwm_enable_ok _ h E') as [Hr' [_ [Hc' [Hm' _]]]].
    pose proof (cadence_pwm_enable_reg s h E) as Hreg.
    split.
    + intros a. rewrite Hm', Hm.
      destruct (Z.eqb_spec a (cpwm_register_address h CPWM_COUNTER_CTRL));
        [|reflexivity].
      rewrite Hreg. u32_bits.
    + intros _. split; [exact Hr'|].
      rewrite Hp in Hc', E'. rewrite Hc'.
      destruct (clk_prepare_enable_counts _ (clk (pwms s h)) E')
        as [_ [He' _]].
      rewrite He', Hc.
      destruct (clk_prepare_enable_counts s (clk (pwms s h)) E) as [_ [He _]].
      rewrite He. reflexivity.
  - rewrite !cadence_pwm_enable_clk_fail by
      (try rewrite cadence_pwm_enable_clk_fail by exact E; exact E).
    cbn [fst snd]. split; [reflexivity|]. intros H. contradiction.
Qed.

Lemma enable_idempotent_registers_witness :
  reg_value (snd (cadence_pwm_enable
                    (snd (cadence_pwm_enable (reset_chip 50000000 0) 0)) 0))
            0 CPWM_COUNTER_CTRL = 0x10 /\
  clk_enable_count
    (clocks (snd (cadence_pwm_enable
                    (snd (cadence_pwm_enable (reset_chip 50000000 0) 0)) 0))
            0%nat) = 2%nat.
Proof.
  split; [reflexivity|].
  exact (proj2 (proj2 (enable_idempotent_registers (reset_chip 50000000 0) 0)
                      eq_refl)).
Defined.

(** ** Operations in sequence *)

Lemma cadence_pwm_disable_pwms (s : cadence_pwm_chip) (h : Z) :
  pwms (cadence_pwm_disable s h) = pwms s.
Proof. reflexivity. Qed.

Lemma cadence_pwm_disable_clocks (s : cadence_pwm_chip) (h : Z) (c : nat) :
  clocks (cadence_pwm_disable s h) c
  = if Nat.eqb c (clk (pwms s h))
    then mk_clk_core (clk_rate (clocks s (clk (pwms s h))))
                     (Nat.pred (clk_prepare_count (clocks s (clk (pwms s h)))))
                     (Nat.pred (clk_enable_count (clocks s (clk (pwms s h)))))
                     (clk_errno (clocks s (clk (pwms s h))))
    else clocks s c.
Proof. reflexivity. Qed.

(** Releasing a clock that was just started gives back the clock store. *)
Lemma clk_disable_after_enable (s s1 : cadence_pwm_chip) (h : Z) (c : nat) :
  clk_errno (clocks s (clk (pwms s h))) = 0 ->
  pwms s1 = pwms s ->
  clocks s1 = clocks (snd (clk_prepare_enable (clk (pwms s h)) s)) ->
  clocks (cadence_pwm_disable s1 h) c = clocks s c.
Proof.
  intros E Hp Hc. rewrite cadence_pwm_disable_clocks, Hp, Hc.
  unfold clk_prepare_enable. rewrite E.
  cbn [Z.eqb snd set_clocks clocks]. rewrite Nat.eqb_refl.
  cbn [clk_rate clk_prepare_count clk_enable_count clk_errno Nat.pred].
  destruct (Nat.eqb_spec c (clk (pwms s h))) as [->|Hne]; [|reflexivity].
  rewrite <- E. destruct (clocks s (clk (pwms s h))). reflexivity.
Qed.

(** X5. [cadence_pwm_disable] undoes what a successful
    [cadence_pwm_enable] did to the clocks: every clock has its counts from
    before the pair of calls, and the channel ends disabled.  In the other
    order a successful enable leaves the channel enabled. *)
Theorem enable_disable_round_trip (s : cadence_pwm_chip) (h : Z) :
  clk_available s h = true ->
  (forall c,
      clocks (cadence_pwm_disable (snd (cadence_pwm_enable s h)) h) c
      = clocks s c) /\
  channel_enabled (cadence_pwm_disable (snd (cadence_pwm_enable s h)) h) h
  = false /\
  fst (cadence_pwm_enable (cadence_pwm_disable s h) h) = 0 /\
  channel_enabled (snd (cadence_pwm_enable (cadence_pwm_disable s h) h)) h
  = true.
Proof.
  intros Hclk. unfold clk_available in Hclk. apply Z.eqb_eq in Hclk.
  destruct (cadence_pwm_enable_ok s h Hclk) as [_ [Hp [Hc _]]].
  assert (Hret : fst (cadence_pwm_enable (cadence_pwm_disable s h) h) = 0).
  { rewrite cadence_pwm_enable_ret, cadence_pwm_disable_pwms,
      cadence_pwm_disable_clocks, Nat.eqb_refl. exact Hclk. }
  split; [|split; [|split]].
  - intros c. apply (clk_disable_after_enable s _ h c Hclk Hp Hc).
  - unfold channel_enabled. rewrite cadence_pwm_disable_reg, Z.lor_spec.
    replace (Z.testbit (Z.lor CPWM_COUNTER_CTRL_COUNTING_DISABLE
                              CPWM_COUNTER_CTRL_WAVE_DISABLE) 0)
      with true by reflexivity.
    rewrite orb_true_r. reflexivity.
  - exact Hret.
  - apply cadence_pwm_enable_enabled.
    rewrite cadence_pwm_enable_ret in Hret. exact Hret.
Qed.

Lemma enable_disable_round_trip_witness :
  clk_available (reset_chip 50000000 0) 2 = true /\
  clocks (cadence_pwm_disable
            (snd (cadence_pwm_enable (reset_chip 50000000 0) 2)) 2) 0%nat
  = clocks (reset_chip 50000000 0) 0%nat.
Proof.
  assert (H : clk_available (reset_chip 50000000 0) 2 = true) by reflexivity.
  split; [exact H|].
  exact (proj1 (enable_disable_round_trip (reset_chip 50000000 0) 2 H) 0%nat).
Defined.

(** ** [cadence_set_polarity] and the mode bits of [cadence_pwm_config] *)

(** The bits of the counter-control word restored at lines 196-206. *)
Lemma counter_ctrl_restore_testbit (x : Z) (pol : pwm_polarity) (n : Z) :
  0 <= n < 32 ->
  Z.testbit (to_u32 (counter_ctrl_restore x pol)) n
  = if (1 =? n) || (3 =? n) || (4 =? n) then true
    else if 2 =? n then false
    else if 6 =? n
         then match pol with
              | PWM_POLARITY_NORMAL => true
              | PWM_POLARITY_INVERSED => false
              end
         else Z.testbit x n.
Proof.
  intros Hn. rewrite to_u32_testbit by exact Hn.
  unfold counter_ctrl_restore.
  change CPWM_COUNTER_CTRL_DECREMENT_ENABLE with (2 ^ 2).
  change CPWM_COUNTER_CTRL_INTERVAL_ENABLE with (2 ^ 1).
  change CPWM_COUNTER_CTRL_RESET with (2 ^ 4).
  change CPWM_COUNTER_CTRL_MATCH_ENABLE with (2 ^ 3).
  change CPWM_COUNTER_CTRL_WAVE_POL with (2 ^ 6).
  destruct pol;
    repeat first [ rewrite Z.lor_spec | rewrite Z.land_spec
                 | rewrite testbit_not_u32 by exact Hn
                 | rewrite Z.pow2_bits_eqb by lia ];
    destruct (Z.eqb_spec 1 n), (Z.eqb_spec 2 n), (Z.eqb_spec 3 n),
      (Z.eqb_spec 4 n), (Z.eqb_spec 6 n);
    try lia; cbn [orb negb andb];
    rewrite ?andb_true_r, ?andb_false_r, ?orb_false_r, ?orb_true_r;
    reflexivity.
Qed.

(** X6. [cadence_set_polarity] returns 0 and touches neither a register,
    nor a clock, nor the access log: it records the polarity of channel
    [h] and of no other channel.  The recorded value reaches the hardware
    with the next successful [cadence_pwm_config], which sets the
    wave-polarity bit for normal polarity and clears it for inversed. *)
Theorem set_polarity_latched
  (s : cadence_pwm_chip) (h : Z) (pol : pwm_polarity) (duty_ns period_ns : Z) :
  let r := cadence_set_polarity s h pol in
  fst r = 0 /\
  mmio (snd r) = mmio s /\
  clocks (snd r) = clocks s /\
  dev_dbg (snd r) = dev_dbg s /\
  polarity (pwms (snd r) h) = pol /\
  clk (pwms (snd r) h) = clk (pwms s h) /\
  useExternalClk (pwms (snd r) h) = useExternalClk (pwms s h) /\
  (forall i, i <> h -> pwms (snd r) i = pwms s i) /\
  (fst (cadence_pwm_config (snd r) h duty_ns period_ns) = 0 ->
   Z.testbit
     (reg_value (snd (cadence_pwm_config (snd r) h duty_ns period_ns))
                h CPWM_COUNTER_CTRL) 6
   = match pol with
     | PWM_POLARITY_NORMAL => true
     | PWM_POLARITY_INVERSED => false
     end).
Proof.
  intros r. subst r.
  assert (Hpwm : pwms (snd (cadence_set_polarity s h pol)) h
                 = mk_cadence_pwm_pwm (clk (pwms s h))
                                      (useExternalClk (pwms s h)) pol).
  { unfold cadence_set_polarity, set_pwms. cbn [snd pwms].
    rewrite Z.eqb_refl. reflexivity. }
  repeat (split; [first [reflexivity | rewrite Hpwm; reflexivity]|]).
  split.
  - intros i Hi. unfold cadence_set_polarity, set_pwms. cbn [snd pwms].
    destruct (Z.eqb_spec i h); [contradiction|reflexivity].
  - intros Hok. apply cadence_pwm_config_success in Hok.
    destruct Hok as [Hclk Hp].
    destruct (cadence_pwm_config_regs _ h duty_ns period_ns Hclk Hp)
      as [_ [_ [_ Hc]]].
    rewrite Hc, counter_ctrl_restore_testbit by lia.
    rewrite Hpwm. reflexivity.
Qed.

Lemma set_polarity_latched_witness :
  reg_value (snd (cadence_set_polarity (running_chip 50000000 0) 0
                                       PWM_POLARITY_INVERSED))
            0 CPWM_COUNTER_CTRL = 0x4a /\
  Z.testbit
    (reg_value
       (snd (cadence_pwm_config
               (snd (cadence_set_polarity (running_chip 50000000 0) 0
                                          PWM_POLARITY_INVERSED))
               0 1500000 20000000))
       0 CPWM_COUNTER_CTRL) 6 = false.
Proof.
  split; [reflexivity|].
  exact (proj2 (proj2 (proj2 (proj2 (proj2 (proj2 (proj2 (proj2
           (set_polarity_latched (running_chip 50000000 0) 0
              PWM_POLARITY_INVERSED 1500000 20000000))))))))
           eq_refl).
Defined.

(** X7. After a successful [cadence_pwm_config] the counter-control
    register has interval mode, match mode and the reset request set and
    the decrement bit clear; its wave-polarity bit follows the channel's
    polarity; every other bit is the one read at entry. *)
Theorem config_counter_ctrl_mode
  (s : cadence_pwm_chip) (h duty_ns period_ns : Z) :
  fst (cadence_pwm_config s h duty_ns period_ns) = 0 ->
  let cc := reg_value (snd (cadence_pwm_config s h duty_ns period_ns))
                      h CPWM_COUNTER_CTRL in
  Z.testbit cc 1 = true /\
  Z.testbit cc 3 = true /\
  Z.testbit cc 4 = true /\
  Z.testbit cc 2 = false /\
  Z.testbit cc 6 = match polarity (pwms s h) with
                   | PWM_POLARITY_NORMAL => true
                   | PWM_POLARITY_INVERSED => false
                   end /\
  (forall n, n <> 1 -> n <> 2 -> n <> 3 -> n <> 4 -> n <> 6 ->
      Z.testbit cc n = Z.testbit (reg_value s h CPWM_COUNTER_CTRL) n).
Proof.
  intros Hok cc. subst cc.
  apply cadence_pwm_config_success in Hok. destruct Hok as [Hclk Hp].
  destruct (cadence_pwm_config_regs s h duty_ns period_ns Hclk Hp)
    as [_ [_ [_ Hc]]].
  repeat (split; [rewrite Hc, counter_ctrl_restore_testbit by lia;
                  reflexivity|]).
  intros n H1 H2 H3 H4 H6.
  destruct (Z.lt_ge_cases n 0) as [Hneg|Hpos];
    [rewrite !Z.testbit_neg_r by exact Hneg; reflexivity|].
  destruct (Z.lt_ge_cases n 32) as [Hlow|Hhigh];
    [|rewrite !reg_value_testbit_high by exact Hhigh; reflexivity].
  rewrite Hc, counter_ctrl_restore_testbit by lia.
  destruct (Z.eqb_spec 1 n), (Z.eqb_spec 2 n), (Z.eqb_spec 3 n),
    (Z.eqb_spec 4 n), (Z.eqb_spec 6 n); try lia; reflexivity.
Qed.

Lemma config_counter_ctrl_mode_witness :
  fst (cadence_pwm_config (reset_chip 50000000 0) 0 1500000 20000000) = 0 /\
  reg_value (snd (cadence_pwm_config (reset_chip 50000000 0) 0
                                     1500000 20000000))
            0 CPWM_COUNTER_CTRL = 0x7b /\
  Z.testbit
    (reg_value (snd (cadence_pwm_config (reset_chip 50000000 0) 0
                                        1500000 20000000))
               0 CPWM_COUNTER_CTRL) 2 = false.
Proof.
  assert (H : fst (cadence_pwm_config (reset_chip 50000000 0) 0
                                      1500000 20000000) = 0)
    by (vm_compute; reflexivity).
  split; [exact H|]. split; [vm_compute; reflexivity|].
  destruct (config_counter_ctrl_mode (reset_chip 50000000 0) 0
                                     1500000 20000000 H)
    as [_ [_ [_ [H2 _]]]].
  exact H2.
Defined.

(** ** What the operations leave alone *)

Lemma cadence_pwm_config_mmio_frame
  (s : cadence_pwm_chip) (h duty_ns period_ns a : Z) :
  a <> cpwm_register_address h CPWM_CLK_CTRL ->
  a <> cpwm_register_address h CPWM_COUNTER_CTRL ->
  a <> cpwm_register_address h CPWM_INTERVAL_COUNTER ->
  a <> cpwm_register_address h CPWM_MATCH_1_COUNTER ->
  mmio (snd (cadence_pwm_config s h duty_ns period_ns)) a = mmio s a.
Proof.
  intros H1 H2 H3 H4.
  destruct (Z.eq_dec (clk_errno (clocks s (clk (pwms s h)))) 0) as [E|E].
  - destruct (Z.lt_ge_cases period_ns 0) as [Hn|Hp].
    + rewrite cadence_pwm_config_einval by assumption. cbn [snd].
      destruct (clk_prepare_enable_regs s (clk (pwms s h))) as [Hm _].
      rewrite Hm. reflexivity.
    + destruct (cadence_pwm_config_ok s h duty_ns period_ns E Hp)
        as [_ [_ [_ [Hm _]]]].
      rewrite Hm.
      destruct (Z.eqb_spec a (cpwm_register_address h CPWM_COUNTER_CTRL));
        [contradiction|].
      destruct (Z.eqb_spec a (cpwm_register_address h CPWM_MATCH_1_COUNTER));
        [contradiction|].
      destruct (Z.eqb_spec a (cpwm_register_address h CPWM_INTERVAL_COUNTER));
        [contradiction|].
      destruct (Z.eqb_spec a (cpwm_register_address h CPWM_CLK_CTRL));
        [contradiction|reflexivity].
  - rewrite cadence_pwm_config_clk_fail by exact E. reflexivity.
Qed.

Lemma cadence_pwm_enable_mmio_frame (s : cadence_pwm_chip) (h a : Z) :
  a <> cpwm_register_address h CPWM_COUNTER_CTRL ->
  mmio (snd (cadence_pwm_enable s h)) a = mmio s a.
Proof.
  intros Ha.
  destruct (Z.eq_dec (clk_errno (clocks s (clk (pwms s h)))) 0) as [E|E].
  - destruct (cadence_pwm_enable_ok s h E) as [_ [_ [_ [Hm _]]]].
    rewrite Hm.
    destruct (Z.eqb_spec a (cpwm_register_address h CPWM_COUNTER_CTRL));
      [contradiction|reflexivity].
  - rewrite cadence_pwm_enable_clk_fail by exact E. reflexivity.
Qed.

Lemma cadence_pwm_disable_mmio_frame (s : cadence_pwm_chip) (h a : Z) :
  a <> cpwm_register_address h CPWM_COUNTER_CTRL ->
  mmio (cadence_pwm_disable s h) a = mmio s a.
Proof.
  intros Ha. rewrite cadence_pwm_disable_mmio.
  destruct (Z.eqb_spec a (cpwm_register_address h CPWM_COUNTER_CTRL));
    [contradiction|reflexivity].
Qed.

(** X8. Whatever its outcome, [cadence_pwm_config] on channel [h] changes
    at most four registers: the clock-control, counter-control, interval
    and match-1 registers of channel [h].  Every other register of every
    channel, the counter value and the match-2 and match-3 registers of
    channel [h] included, keeps its value. *)
Theorem config_writes_four_registers
  (s : cadence_pwm_chip) (h duty_ns period_ns h' : Z) (reg : cpwm_register) :
  valid_hwpwm h -> valid_hwpwm h' ->
  h' <> h \/ (reg <> CPWM_CLK_CTRL /\ reg <> CPWM_COUNTER_CTRL /\
              reg <> CPWM_INTERVAL_COUNTER /\ reg <> CPWM_MATCH_1_COUNTER) ->
  reg_value (snd (cadence_pwm_config s h duty_ns period_ns)) h' reg
  = reg_value s h' reg.
Proof.
  intros Hh Hh' Hother. unfold reg_value, ioread32.
  rewrite cadence_pwm_config_mmio_frame; [reflexivity| | | |];
    intros E; apply (cpwm_register_address_inj h' h _ _ Hh' Hh) in E;
    destruct E as [E1 E2]; destruct Hother as [Hne|[H1 [H2 [H3 H4]]]];
    contradiction.
Qed.

Lemma config_writes_four_registers_witness :
  valid_hwpwm 1 /\ valid_hwpwm 1 /\
  reg_value (snd (cadence_pwm_config (reset_chip 50000000 0) 1
                                     1500000 20000000))
            1 CPWM_MATCH_2_COUNTER
  = reg_value (reset_chip 50000000 0) 1 CPWM_MATCH_2_COUNTER.
Proof.
  assert (H : valid_hwpwm 1) by (unfold valid_hwpwm, CPWM_NUM_PWM; lia).
  split; [exact H|]. split; [exact H|].
  apply (config_writes_four_registers (reset_chip 50000000 0) 1
           1500000 20000000 1 CPWM_MATCH_2_COUNTER H H).
  right. repeat split; discriminate.
Defined.

(** X9. The channels are isolated from one another: none of the four
    operations on channel [h] changes a register of another channel, and
    none changes another channel's recorded clock, clock source or
    polarity. *)
Theorem channel_isolation
  (s : cadence_pwm_chip) (h h' duty_ns period_ns : Z) (pol : pwm_polarity)
  (reg : cpwm_register) :
  valid_hwpwm h -> valid_hwpwm h' -> h' <> h ->
  (reg_value (snd (cadence_pwm_config s h duty_ns period_ns)) h' reg
   = reg_value s h' reg /\
   pwms (snd (cadence_pwm_config s h duty_ns period_ns)) h' = pwms s h') /\
  (reg_value (snd (cadence_pwm_enable s h)) h' reg = reg_value s h' reg /\
   pwms (snd (cadence_pwm_enable s h)) h' = pwms s h') /\
  (reg_value (cadence_pwm_disable s h) h' reg = reg_value s h' reg /\
   pwms (cadence_pwm_disable s h) h' = pwms s h') /\
  (reg_value (snd (cadence_set_polarity s h pol)) h' reg = reg_value s h' reg /\
   pwms (snd (cadence_set_polarity s h pol)) h' = pwms s h').
Proof.
  intros Hh Hh' Hne.
  assert (Haddr : forall r,
             cpwm_register_address h' reg <> cpwm_register_address h r).
  { intros r E. apply (cpwm_register_address_inj h' h _ _ Hh' Hh) in E.
    destruct E as [E _]. contradiction. }
  split; [|split; [|split]]; split.
  - unfold reg_value, ioread32.
    rewrite cadence_pwm_config_mmio_frame by apply Haddr. reflexivity.
  - destruct (Z.eq_dec (clk_errno (clocks s (clk (pwms s h)))) 0) as [E|E].
    + destruct (Z.lt_ge_cases period_ns 0) as [Hn|Hp].
      * rewrite cadence_pwm_config_einval by assumption. cbn [snd].
        destruct (clk_prepare_enable_regs s (clk (pwms s h))) as [_ [_ Hp]].
        rewrite Hp. reflexivity.
      * destruct (cadence_pwm_config_ok s h duty_ns period_ns E Hp)
          as [_ [Hpw _]].
        rewrite Hpw. reflexivity.
    + rewrite cadence_pwm_config_clk_fail by exact E. reflexivity.
  - unfold reg_value, ioread32.
    rewrite cadence_pwm_enable_mmio_frame by apply Haddr. reflexivity.
  - destruct (Z.eq_dec (clk_errno (clocks s (clk (pwms s h)))) 0) as [E|E].
    + destruct (cadence_pwm_enable_ok s h E) as [_ [Hpw _]].
      rewrite Hpw. reflexivity.
    + rewrite cadence_pwm_enable_clk_fail by exact E. reflexivity.
  - unfold reg_value, ioread32.
    rewrite cadence_pwm_disable_mmio_frame by apply Haddr. reflexivity.
  - reflexivity.
  - reflexivity.
  - unfold cadence_set_polarity, set_pwms. cbn [snd pwms].
    destruct (Z.eqb_spec h' h); [contradiction|reflexivity].
Qed.

Lemma channel_isolation_witness :
  valid_hwpwm 0 /\ valid_hwpwm 2 /\ 2 <> 0 /\
  reg_value (snd (cadence_pwm_config (running_chip 50000000 2) 0
                                     1500000 20000000))
            2 CPWM_COUNTER_CTRL = 0x4a.
Proof.
  assert (H0 : valid_hwpwm 0) by (unfold valid_hwpwm, CPWM_NUM_PWM; lia).
  assert (H2 : valid_hwpwm 2) by (unfold valid_hwpwm, CPWM_NUM_PWM; lia).
  assert (Hne : 2 <> 0) by discriminate.
  split; [exact H0|]. split; [exact H2|]. split; [exact Hne|].
  rewrite (proj1 (proj1 (channel_isolation (running_chip 50000000 2) 0 2
                           1500000 20000000 PWM_POLARITY_NORMAL
                           CPWM_COUNTER_CTRL H0 H2 Hne))).
  reflexivity.
Defined.

(** ** The prescaler exponent and the clock-control register *)

Lemma fls_from_range (n : nat) (x : Z) : 0 <= fls_from n x <= Z.of_nat n.
Proof.
  induction n as [|k IH]; cbn [fls_from]; [lia|].
  destruct (Z.testbit x (Z.of_nat k)); lia.
Qed.

Lemma cadence_prescaler_range (p : Z) : 0 <= cadence_prescaler p <= 16.
Proof.
  unfold cadence_prescaler, ilog2, fls.
  pose proof (fls_from_range 32 (to_u32 p)) as H.
  change (Z.of_nat 32) with 32 in H.
  destruct (Z.ltb_spec (fls_from 32 (to_u32 p) - 1 + 1 - 16) 0); lia.
Qed.

Lemma cadence_prescaler_negative (p : Z) :
  INT_MIN <= p < 0 -> cadence_prescaler p = 16.
Proof.
  unfold INT_MIN. intros H.
  assert (Hu : to_u32 p = p + 2 ^ 32).
  { unfold to_u32. symmetry. apply (Z.mod_unique _ _ (-1)); lia. }
  assert (Hl : Z.log2 (to_u32 p) = 31).
  { apply Z.log2_unique; lia. }
  unfold cadence_prescaler, ilog2, fls.
  rewrite (fls_from_log2 32 (to_u32 p)) by (change (Z.of_nat 32) with 32; lia).
  rewrite Hl. reflexivity.
Qed.

(** The prescale code [e - 1] fits its 4-bit field for every exponent the
    driver can compute. *)
Lemma prescale_code_field (e : Z) :
  1 <= e <= 16 ->
  Z.shiftr (Z.lor CPWM_CLK_PRESCALE_ENABLE
              (Z.land (Z.shiftl (e - 1) CPWM_CLK_PRESCALE_SHIFT)
                      CPWM_CLK_PRESCALE_MASK)) CPWM_CLK_PRESCALE_SHIFT
  = e - 1.
Proof.
  intros H.
  assert (Hcase : e = 1 \/ e = 2 \/ e = 3 \/ e = 4 \/ e = 5 \/ e = 6 \/ e = 7 \/
                  e = 8 \/ e = 9 \/ e = 10 \/ e = 11 \/ e = 12 \/ e = 13 \/
                  e = 14 \/ e = 15 \/ e = 16) by lia.
  repeat (destruct Hcase as [->|Hcase]; [reflexivity|]).
  subst e. reflexivity.
Qed.

(** Bits 1 to 4 of a word, read as a number. *)
Lemma prescale_field_of_low_bits (w : Z) :
  Z.land (Z.shiftr w CPWM_CLK_PRESCALE_SHIFT) 15
  = Z.shiftr (Z.land w (Z.lor CPWM_CLK_PRESCALE_ENABLE CPWM_CLK_PRESCALE_MASK))
             CPWM_CLK_PRESCALE_SHIFT.
Proof.
  change CPWM_CLK_PRESCALE_SHIFT with 1.
  change (Z.lor CPWM_CLK_PRESCALE_ENABLE CPWM_CLK_PRESCALE_MASK)
    with (Z.ones 5).
  change 15 with (Z.ones 4).
  apply Z.bits_inj'. intros n Hn.
  rewrite Z.land_spec, !Z.shiftr_spec, Z.land_spec by exact Hn.
  rewrite !Z.testbit_ones_nonneg by lia.
  destruct (Z.ltb_spec n 4), (Z.ltb_spec (n + 1) 5); try lia; reflexivity.
Qed.

(** The bits of the clock-control word above the prescaler field. *)
Lemma clk_ctrl_high_testbit (x e : Z) (external : bool) (n : Z) :
  5 <= n < 32 ->
  Z.testbit (to_u32 (clk_ctrl_source (clk_ctrl_prescale x e) external)) n
  = if 5 =? n then external else Z.testbit x n.
Proof.
  intros Hn. rewrite to_u32_testbit by lia.
  assert (H31 : Z.testbit (Z.lor CPWM_CLK_PRESCALE_ENABLE
                                 CPWM_CLK_PRESCALE_MASK) n = false)
    by (apply (testbit_above _ 5); [vm_compute; split; [discriminate|reflexivity]|lia]).
  assert (H30 : Z.testbit CPWM_CLK_PRESCALE_MASK n = false)
    by (apply (testbit_above _ 5); [vm_compute; split; [discriminate|reflexivity]|lia]).
  assert (H1 : Z.testbit CPWM_CLK_PRESCALE_ENABLE n = false)
    by (apply (testbit_above _ 5); [vm_compute; split; [discriminate|reflexivity]|lia]).
  unfold clk_ctrl_source, clk_ctrl_prescale.
  change CPWM_CLK_SRC_EXTERNAL with (2 ^ 5).
  destruct external, (e =? 0);
    repeat first [ rewrite Z.lor_spec | rewrite Z.land_spec
                 | rewrite testbit_not_u32 by lia
                 | rewrite Z.pow2_bits_eqb by lia ];
    rewrite ?H31, ?H30, ?H1;
    destruct (Z.eqb_spec 5 n); cbn [orb negb andb];
    rewrite ?andb_true_r, ?andb_false_r, ?orb_false_r, ?orb_true_r;
    reflexivity.
Qed.

Lemma clk_ctrl_enable_bit (x e : Z) (external : bool) :
  Z.testbit (to_u32 (clk_ctrl_source (clk_ctrl_prescale x e) external)) 0
  = negb (e =? 0).
Proof.
  unfold clk_ctrl_source, clk_ctrl_prescale.
  destruct external, (e =? 0); solve_bits.
Qed.

Lemma prescaler_of_eq (s : cadence_pwm_chip) (h period_ns : Z) :
  prescaler_of s h period_ns
  = cadence_prescaler (period_clocks_of s h period_ns).
Proof. unfold prescaler_of. reflexivity. Qed.

(** X10. The exponent computed at lines 163-165 lies between 0 and 16 for
    every value of [period_clocks], negative ones (which give 16) and zero
    (which gives 0) included; so the prescale code [exponent - 1] always
    fits the 4-bit hardware field.  After a successful
    [cadence_pwm_config] the clock-control register has the prescaler
    disabled with a zero field when the exponent is 0, and enabled with the
    field holding exactly [exponent - 1] otherwise. *)
Theorem config_prescale_field
  (s : cadence_pwm_chip) (h duty_ns period_ns : Z) :
  fst (cadence_pwm_config s h duty_ns period_ns) = 0 ->
  let e := prescaler_of s h period_ns in
  let ck := reg_value (snd (cadence_pwm_config s h duty_ns period_ns))
                      h CPWM_CLK_CTRL in
  0 <= e <= 16 /\
  (INT_MIN <= period_clocks_of s h period_ns < 0 -> e = 16) /\
  (period_clocks_of s h period_ns = 0 -> e = 0) /\
  (e = 0 ->
   Z.testbit ck 0 = false /\
   Z.land (Z.shiftr ck CPWM_CLK_PRESCALE_SHIFT) 15 = 0) /\
  (0 < e ->
   Z.testbit ck 0 = true /\
   Z.land (Z.shiftr ck CPWM_CLK_PRESCALE_SHIFT) 15 = e - 1).
Proof.
  intros Hok e ck. subst e ck.
  apply cadence_pwm_config_success in Hok. destruct Hok as [Hclk Hp].
  destruct (cadence_pwm_config_regs s h duty_ns period_ns Hclk Hp)
    as [_ [_ [Hc _]]].
  pose proof (cadence_prescaler_range (period_clocks_of s h period_ns)) as Hr.
  rewrite <- prescaler_of_eq in Hr.
  pose proof (clk_ctrl_prescale_bits (reg_value s h CPWM_CLK_CTRL)
                (prescaler_of s h period_ns) (useExternalClk (pwms s h)))
    as Hlow.
  rewrite <- Hc in Hlow.
  split; [exact Hr|]. split; [|split; [|split]].
  - intros Hneg. rewrite prescaler_of_eq.
    apply cadence_prescaler_negative. exact Hneg.
  - intros Hz. rewrite prescaler_of_eq, Hz. reflexivity.
  - intros He. rewrite He in Hlow. cbn [Z.eqb] in Hlow.
    rewrite prescale_field_of_low_bits, Hlow. split; [|reflexivity].
    rewrite Hc, clk_ctrl_enable_bit, He. reflexivity.
  - intros He.
    destruct (Z.eqb_spec (prescaler_of s h period_ns) 0) as [E0|E0]; [lia|].
    rewrite prescale_field_of_low_bits, Hlow.
    split; [|apply prescale_code_field; lia].
    rewrite Hc, clk_ctrl_enable_bit.
    apply Z.eqb_neq in E0. rewrite E0. reflexivity.
Qed.

Lemma config_prescale_field_witness :
  fst (cadence_pwm_config (reset_chip 50000000 0) 0 1500000 20000000) = 0 /\
  prescaler_of (reset_chip 50000000 0) 0 20000000 = 4 /\
  Z.land (Z.shiftr
            (reg_value (snd (cadence_pwm_config (reset_chip 50000000 0) 0
                                                1500000 20000000))
                       0 CPWM_CLK_CTRL) CPWM_CLK_PRESCALE_SHIFT) 15
  = 4 - 1.
Proof.
  assert (H : fst (cadence_pwm_config (reset_chip 50000000 0) 0
                                      1500000 20000000) = 0)
    by (vm_compute; reflexivity).
  assert (He : prescaler_of (reset_chip 50000000 0) 0 20000000 = 4)
    by (vm_compute; reflexivity).
  split; [exact H|]. split; [exact He|].
  destruct (config_prescale_field (reset_chip 50000000 0) 0
                                  1500000 20000000 H)
    as [_ [_ [_ [_ Hpos]]]].
  rewrite He in Hpos. apply Hpos. lia.
Defined.

(** X11. After a successful [cadence_pwm_config] the clock-source bit of
    the clock-control register is set exactly when the channel uses a
    clock of its own ([useExternalClk]), and every bit above it, the
    falling-edge bit included, is the one read before the call. *)
Theorem config_clock_source
  (s : cadence_pwm_chip) (h duty_ns period_ns : Z) :
  fst (cadence_pwm_config s h duty_ns period_ns) = 0 ->
  let ck := reg_value (snd (cadence_pwm_config s h duty_ns period_ns))
                      h CPWM_CLK_CTRL in
  Z.testbit ck 5 = useExternalClk (pwms s h) /\
  (forall n, 5 < n ->
      Z.testbit ck n = Z.testbit (reg_value s h CPWM_CLK_CTRL) n).
Proof.
  intros Hok ck. subst ck.
  apply cadence_pwm_config_success in Hok. destruct Hok as [Hclk Hp].
  destruct (cadence_pwm_config_regs s h duty_ns period_ns Hclk Hp)
    as [_ [_ [Hc _]]].
  split.
  - rewrite Hc, clk_ctrl_high_testbit by lia. reflexivity.
  - intros n Hn.
    destruct (Z.lt_ge_cases n 32) as [Hlow|Hhigh];
      [|rewrite !reg_value_testbit_high by exact Hhigh; reflexivity].
    rewrite Hc, clk_ctrl_high_testbit by lia.
    destruct (Z.eqb_spec 5 n); [lia|reflexivity].
Qed.

Lemma config_clock_source_witness :
  fst (cadence_pwm_config (reset_chip 50000000 0) 0 1500000 20000000) = 0 /\
  Z.testbit
    (reg_value (snd (cadence_pwm_config (reset_chip 50000000 0) 0
                                        1500000 20000000))
               0 CPWM_CLK_CTRL) 5 = false.
Proof.
  assert (H : fst (cadence_pwm_config (reset_chip 50000000 0) 0
                                      1500000 20000000) = 0)
    by (vm_compute; reflexivity).
  split; [exact H|].
  exact (proj1 (config_clock_source (reset_chip 50000000 0) 0
                                    1500000 20000000 H)).
Defined.

(** ** Accuracy of the computed counts *)

Lemma shiftr_prescaler_bounds (p : Z) :
  0 < p <= INT_MAX ->
  let e := cadence_prescaler p in
  0 <= e /\ 1 <= Z.shiftr p e <= 65535 /\ (0 < e -> 32768 <= Z.shiftr p e).
Proof.
  intros H e. subst e. rewrite cadence_prescaler_log2 by exact H.
  unfold INT_MAX in H.
  destruct (Z.log2_spec p) as [Hlo Hhi]; [lia|].
  assert (Hl : 0 <= Z.log2 p) by apply Z.log2_nonneg.
  assert (Hup : Z.shiftr p (Z.max 0 (Z.log2 p + 1 - 16)) <= 65535).
  { apply shiftr_below_2_16; [lia|].
    apply Z.lt_le_trans with (2 ^ Z.succ (Z.log2 p)); [exact Hhi|].
    apply Z.pow_le_mono_r; lia. }
  assert (Hdown : 0 < Z.max 0 (Z.log2 p + 1 - 16) ->
                  32768 <= Z.shiftr p (Z.max 0 (Z.log2 p + 1 - 16))).
  { intros He. rewrite Z.shiftr_div_pow2 by lia.
    change 32768 with (2 ^ 15).
    apply Z.div_le_lower_bound; [lia|].
    rewrite <- Z.pow_add_r by lia.
    replace (Z.max 0 (Z.log2 p + 1 - 16) + 15) with (Z.log2 p) by lia.
    exact Hlo. }
  split; [lia|]. split; [|exact Hdown].
  split; [|exact Hup].
  destruct (Z.eq_dec (Z.max 0 (Z.log2 p + 1 - 16)) 0) as [E|E].
  - rewrite E, Z.shiftr_0_r. lia.
  - assert (0 < Z.max 0 (Z.log2 p + 1 - 16)) by lia.
    specialize (Hdown H0). lia.
Qed.

(** X12. For a positive [period_clocks] the interval count loses nothing
    to the 16-bit mask and is never 0; it is the period in units of
    [2^exponent] clocks, rounded down, so the programmed period is short by
    less than one prescaled tick; and whenever the prescaler is in use the
    count is at least 32768, that is the counter keeps 15 bits or more of
    resolution. *)
Theorem interval_count_accuracy (period_clocks : Z) :
  0 < period_clocks <= INT_MAX ->
  let e := cadence_prescaler period_clocks in
  let interval := Z.land (Z.shiftr period_clocks e) 0xffff in
  interval = Z.shiftr period_clocks e /\
  1 <= interval <= 65535 /\
  interval * 2 ^ e <= period_clocks < (interval + 1) * 2 ^ e /\
  (0 < e -> 32768 <= interval).
Proof.
  intros H e interval. subst e interval.
  destruct (shiftr_prescaler_bounds period_clocks H) as [He [Hr Hres]].
  rewrite land_0xffff_small by lia.
  split; [reflexivity|]. split; [exact Hr|]. split; [|exact Hres].
  rewrite Z.shiftr_div_pow2 by exact He.
  assert (Hpow : 0 < 2 ^ cadence_prescaler period_clocks)
    by (apply Z.pow_pos_nonneg; lia).
  pose proof (Z.mul_div_le period_clocks _ Hpow).
  pose proof (Z.mul_succ_div_gt period_clocks _ Hpow).
  lia.
Qed.

Lemma interval_count_accuracy_witness :
  0 < 1000001 <= INT_MAX /\
  Z.land (Z.shiftr 1000001 (cadence_prescaler 1000001)) 0xffff * 2 ^ 4
  <= 1000001
  < (Z.land (Z.shiftr 1000001 (cadence_prescaler 1000001)) 0xffff + 1) * 2 ^ 4.
Proof.
  assert (H : 0 < 1000001 <= INT_MAX) by (unfold INT_MAX; lia).
  split; [exact H|].
  destruct (interval_count_accuracy 1000001 H) as [_ [_ [Hq _]]].
  exact Hq.
Defined.

Lemma ns_to_clocks_exact (ns rate : Z) :
  0 <= ns -> 0 <= rate -> ns * rate / 1000000000 <= INT_MAX ->
  ns_to_clocks ns rate = ns * rate / 1000000000.
Proof.
  unfold INT_MAX. intros Hns Hrate Hq.
  assert (Hup : ns * rate < 1000000000 * Z.succ (ns * rate / 1000000000))
    by (apply Z.mul_succ_div_gt; lia).
  assert (Hq0 : 0 <= ns * rate / 1000000000) by (apply Z.div_pos; nia).
  unfold ns_to_clocks. rewrite clocks_u64_exact by nia.
  apply to_s32_small. lia.
Qed.

Lemma duty_clocks_of_eq (s : cadence_pwm_chip) (h duty_ns : Z) :
  duty_clocks_of s h duty_ns
  = ns_to_clocks duty_ns (clk_get_rate (clk (pwms s h)) s).
Proof. unfold duty_clocks_of. reflexivity. Qed.

Lemma interval_count_eq (s : cadence_pwm_chip) (h period_ns : Z) :
  interval_count s h period_ns
  = Z.land (Z.shiftr (period_clocks_of s h period_ns)
                     (prescaler_of s h period_ns)) 0xffff.
Proof. unfold interval_count. reflexivity. Qed.

(** X13. When the duty does not exceed the period and the period's tick
    count fits the [int] that holds it, the match count written by
    [cadence_pwm_config] does not exceed the interval count: a duty cycle
    of at most 100% is programmed as one. *)
Theorem config_duty_within_period
  (s : cadence_pwm_chip) (h duty_ns period_ns : Z) :
  clk_available s h = true ->
  0 <= duty_ns <= period_ns ->
  0 <= clk_get_rate (clk (pwms s h)) s ->
  period_ns * clk_get_rate (clk (pwms s h)) s / 1000000000 <= INT_MAX ->
  let s' := snd (cadence_pwm_config s h duty_ns period_ns) in
  duty_clocks_of s h duty_ns <= period_clocks_of s h period_ns /\
  reg_value s' h CPWM_MATCH_1_COUNTER <= reg_value s' h CPWM_INTERVAL_COUNTER /\
  reg_value s' h CPWM_MATCH_1_COUNTER
  = Z.shiftr (duty_clocks_of s h duty_ns) (prescaler_of s h period_ns) /\
  reg_value s' h CPWM_INTERVAL_COUNTER
  = Z.shiftr (period_clocks_of s h period_ns) (prescaler_of s h period_ns).
Proof.
  intros Hclk Hd Hrate Hq s'. subst s'.
  set (rate := clk_get_rate (clk (pwms s h)) s) in *.
  assert (Hp : 0 <= period_ns) by lia.
  assert (Hmono : duty_ns * rate / 1000000000 <= period_ns * rate / 1000000000)
    by (apply Z.div_le_mono; nia).
  assert (Hd0 : 0 <= duty_ns * rate / 1000000000) by (apply Z.div_pos; nia).
  assert (Hpc : period_clocks_of s h period_ns = period_ns * rate / 1000000000).
  { rewrite period_clocks_of_eq. apply ns_to_clocks_exact; lia. }
  assert (Hdc : duty_clocks_of s h duty_ns = duty_ns * rate / 1000000000).
  { rewrite duty_clocks_of_eq. apply ns_to_clocks_exact; lia. }
  destruct (cadence_pwm_config_regs s h duty_ns period_ns Hclk Hp)
    as [Hi [Hm _]].
  rewrite Hi, Hm, interval_count_eq, match_count_eq.
  pose proof (cadence_prescaler_range (period_clocks_of s h period_ns)) as Hr.
  rewrite <- prescaler_of_eq in Hr.
  assert (Hsh : Z.shiftr (duty_clocks_of s h duty_ns)
                         (prescaler_of s h period_ns)
                <= Z.shiftr (period_clocks_of s h period_ns)
                            (prescaler_of s h period_ns)).
  { rewrite !Z.shiftr_div_pow2 by lia.
    apply Z.div_le_mono; [apply Z.pow_pos_nonneg; lia|lia]. }
  assert (Hsd : 0 <= Z.shiftr (duty_clocks_of s h duty_ns)
                              (prescaler_of s h period_ns)).
  { apply Z.shiftr_nonneg. lia. }
  assert (Hsp : Z.shiftr (period_clocks_of s h period_ns)
                         (prescaler_of s h period_ns) <= 65535).
  { destruct (Z.eq_dec (period_clocks_of s h period_ns) 0) as [E0|E0].
    - rewrite E0, Z.shiftr_0_l. lia.
    - rewrite prescaler_of_eq.
      apply (shiftr_prescaler_bounds (period_clocks_of s h period_ns)). lia. }
  rewrite !land_0xffff_small by lia.
  split; [lia|]. split; [exact Hsh|]. split; reflexivity.
Qed.

Lemma config_duty_within_period_witness :
  clk_available (reset_chip 50000000 0) 0 = true /\
  0 <= 1500000 <= 20000000 /\
  reg_value (snd (cadence_pwm_config (reset_chip 50000000 0) 0
                                     1500000 20000000))
            0 CPWM_MATCH_1_COUNTER
  <= reg_value (snd (cadence_pwm_config (reset_chip 50000000 0) 0
                                        1500000 20000000))
               0 CPWM_INTERVAL_COUNTER.
Proof.
  assert (H1 : clk_available (reset_chip 50000000 0) 0 = true) by reflexivity.
  assert (H2 : 0 <= 1500000 <= 20000000) by lia.
  assert (H3 : 0 <= clk_get_rate (clk (pwms (reset_chip 50000000 0) 0))
                                 (reset_chip 50000000 0))
    by (vm_compute; discriminate).
  assert (H4 : 20000000 * clk_get_rate (clk (pwms (reset_chip 50000000 0) 0))
                                       (reset_chip 50000000 0) / 1000000000
               <= INT_MAX)
    by (vm_compute; discriminate).
  split; [exact H1|]. split; [exact H2|].
  destruct (config_duty_within_period (reset_chip 50000000 0) 0
              1500000 20000000 H1 H2 H3 H4) as [_ [Hle _]].
  exact Hle.
Defined.

(** ** The clock across [cadence_pwm_config] *)

(** X14. A successful [cadence_pwm_config] keeps the clock reference it
    took at entry: the counts of the channel's clock are one above their
    values before the call and no other clock changes.  A following
    [cadence_pwm_disable] gives that reference back, so the pair leaves
    every clock as it was. *)
Theorem config_holds_clock
  (s : cadence_pwm_chip) (h duty_ns period_ns : Z) :
  fst (cadence_pwm_config s h duty_ns period_ns) = 0 ->
  let s' := snd (cadence_pwm_config s h duty_ns period_ns) in
  let c := clk (pwms s h) in
  clk_prepare_count (clocks s' c) = S (clk_prepare_count (clocks s c)) /\
  clk_enable_count (clocks s' c) = S (clk_enable_count (clocks s c)) /\
  clk_rate (clocks s' c) = clk_rate (clocks s c) /\
  (forall c', c' <> c -> clocks s' c' = clocks s c') /\
  (forall c', clocks (cadence_pwm_disable s' h) c' = clocks s c').
Proof.
  intros Hok s' c. subst s' c.
  apply cadence_pwm_config_success in Hok. destruct Hok as [Hclk Hp].
  unfold clk_available in Hclk. apply Z.eqb_eq in Hclk.
  destruct (cadence_pwm_config_ok s h duty_ns period_ns Hclk Hp)
    as [_ [Hpw [Hc _]]].
  destruct (clk_prepare_enable_counts s (clk (pwms s h)) Hclk)
    as [Hpc [Hec Hrt]].
  rewrite Hc.
  split; [exact Hpc|]. split; [exact Hec|]. split; [exact Hrt|]. split.
  - intros c' Hne. unfold clk_prepare_enable. rewrite Hclk.
    cbn [Z.eqb snd set_clocks clocks].
    destruct (Nat.eqb_spec c' (clk (pwms s h))); [contradiction|reflexivity].
  - intros c'. apply (clk_disable_after_enable s _ h c' Hclk Hpw Hc).
Qed.

Lemma config_holds_clock_witness :
  fst (cadence_pwm_config (reset_chip 50000000 0) 0 1500000 20000000) = 0 /\
  clk_enable_count
    (clocks (snd (cadence_pwm_config (reset_chip 50000000 0) 0
                                     1500000 20000000)) 0%nat) = 1%nat.
Proof.
  assert (H : fst (cadence_pwm_config (reset_chip 50000000 0) 0
                                      1500000 20000000) = 0)
    by (vm_compute; reflexivity).
  split; [exact H|].
  destruct (config_holds_clock (reset_chip 50000000 0) 0 1500000 20000000 H)
    as [_ [He _]].
  exact He.
Defined.

(** X15. Configuring a channel and then enabling it gives a running
    channel with the requested waveform: both calls succeed, the counting
    and waveform outputs are on, interval and match mode are selected, and
    the interval and match-1 registers still hold the counts
    [cadence_pwm_config] computed. *)
Theorem config_then_enable
  (s : cadence_pwm_chip) (h duty_ns period_ns : Z) :
  clk_available s h = true -> 0 <= period_ns ->
  let s1 := snd (cadence_pwm_config s h duty_ns period_ns) in
  let s2 := snd (cadence_pwm_enable s1 h) in
  fst (cadence_pwm_config s h duty_ns period_ns) = 0 /\
  fst (cadence_pwm_enable s1 h) = 0 /\
  channel_enabled s2 h = true /\
  Z.testbit (reg_value s2 h CPWM_COUNTER_CTRL) 1 = true /\
  Z.testbit (reg_value s2 h CPWM_COUNTER_CTRL) 3 = true /\
  reg_value s2 h CPWM_INTERVAL_COUNTER = interval_count s h period_ns /\
  reg_value s2 h CPWM_MATCH_1_COUNTER = match_count s h duty_ns period_ns.
Proof.
  intros Hclk Hp s1 s2. subst s1 s2.
  destruct (cadence_pwm_config_regs s h duty_ns period_ns Hclk Hp)
    as [Hi [Hm [_ Hcc]]].
  assert (Hclk0 := Hclk). unfold clk_available in Hclk0.
  apply Z.eqb_eq in Hclk0.
  destruct (cadence_pwm_config_ok s h duty_ns period_ns Hclk0 Hp)
    as [Hret [Hpw [Hc _]]].
  set (s1 := snd (cadence_pwm_config s h duty_ns period_ns)) in *.
  assert (E1 : clk_errno (clocks s1 (clk (pwms s1 h))) = 0).
  { rewrite Hpw, Hc, clk_prepare_enable_errno. exact Hclk0. }
  pose proof (cadence_pwm_enable_reg s1 h E1) as Hreg.
  assert (Hframe : forall reg, reg <> CPWM_COUNTER_CTRL ->
             reg_value (snd (cadence_pwm_enable s1 h)) h reg
             = reg_value s1 h reg).
  { intros reg Hne. unfold reg_value, ioread32.
    rewrite cadence_pwm_enable_mmio_frame; [reflexivity|].
    intros E. apply Z.eqb_eq in E.
    rewrite cpwm_register_address_neq in E by exact Hne. discriminate. }
  split; [exact Hret|].
  split; [rewrite cadence_pwm_enable_ret; exact E1|].
  split; [apply cadence_pwm_enable_enabled; exact E1|].
  split; [|split; [|split]].
  - rewrite Hreg, enable_word_testbit, Hcc, counter_ctrl_restore_testbit by lia.
    reflexivity.
  - rewrite Hreg, enable_word_testbit, Hcc, counter_ctrl_restore_testbit by lia.
    reflexivity.
  - rewrite Hframe by discriminate. exact Hi.
  - rewrite Hframe by discriminate. exact Hm.
Qed.

Lemma config_then_enable_witness :
  clk_available (reset_chip 50000000 0) 0 = true /\ 0 <= 20000000 /\
  channel_enabled
    (snd (cadence_pwm_enable
            (snd (cadence_pwm_config (reset_chip 50000000 0) 0
                                     1500000 20000000)) 0)) 0 = true.
Proof.
  assert (H1 : clk_available (reset_chip 50000000 0) 0 = true) by reflexivity.
  assert (H2 : 0 <= 20000000) by lia.
  split; [exact H1|]. split; [exact H2|].
  destruct (config_then_enable (reset_chip 50000000 0) 0 1500000 20000000
                               H1 H2) as [_ [_ [He _]]].
  exact He.
Defined.

(** ** The order of the register accesses *)

(** X16. A successful [cadence_pwm_config] makes exactly seven register
    accesses, in this order: it reads the counter-control register and
    writes it back with the counting-disabled bit set; it reads and writes
    the clock-control register; it writes the interval and the match-1
    register; and last it writes the counter-control register.  So both
    thresholds are written while the counter is stopped.  A failing call
    makes no access. *)
Theorem config_access_sequence
  (s : cadence_pwm_chip) (h duty_ns period_ns : Z) :
  let r := cadence_pwm_config s h duty_ns period_ns in
  let stop := Z.lor (reg_value s h CPWM_COUNTER_CTRL)
                    CPWM_COUNTER_CTRL_COUNTING_DISABLE in
  (fst r = 0 ->
   rev (dev_dbg (snd r)) =
     rev (dev_dbg s) ++
     [ IoRead h CPWM_COUNTER_CTRL (reg_value s h CPWM_COUNTER_CTRL);
       IoWrite h CPWM_COUNTER_CTRL stop;
       IoRead h CPWM_CLK_CTRL (reg_value s h CPWM_CLK_CTRL);
       IoWrite h CPWM_CLK_CTRL (reg_value (snd r) h CPWM_CLK_CTRL);
       IoWrite h CPWM_INTERVAL_COUNTER (interval_count s h period_ns);
       IoWrite h CPWM_MATCH_1_COUNTER (match_count s h duty_ns period_ns);
       IoWrite h CPWM_COUNTER_CTRL (reg_value (snd r) h CPWM_COUNTER_CTRL) ]) /\
  Z.testbit stop 0 = true /\
  (fst r <> 0 -> dev_dbg (snd r) = dev_dbg s).
Proof.
  intros r stop. subst r stop. split; [|split].
  - intros Hok. apply cadence_pwm_config_success in Hok.
    destruct Hok as [Hclk Hp].
    destruct (cadence_pwm_config_regs s h duty_ns period_ns Hclk Hp)
      as [_ [_ [Hck Hcc]]].
    unfold clk_available in Hclk. apply Z.eqb_eq in Hclk.
    destruct (cadence_pwm_config_ok s h duty_ns period_ns Hclk Hp)
      as [_ [_ [_ [_ Hlog]]]].
    rewrite Hck, Hcc, Hlog, rev_app_distr. cbn [rev app].
    rewrite to_u32_lor.
    rewrite (to_u32_small CPWM_COUNTER_CTRL_COUNTING_DISABLE)
      by (vm_compute; split; [discriminate|reflexivity]).
    fold (to_u32 (mmio s (cpwm_register_address h CPWM_COUNTER_CTRL))).
    unfold reg_value, ioread32. rewrite to_u32_idem.
    unfold interval_count, match_count.
    rewrite !to_u32_land_0xffff. reflexivity.
  - rewrite Z.lor_spec. apply orb_true_r.
  - intros Hfail.
    destruct (Z.eq_dec (clk_errno (clocks s (clk (pwms s h)))) 0) as [E|E].
    + destruct (Z.lt_ge_cases period_ns 0) as [Hn|Hp].
      * rewrite cadence_pwm_config_einval by assumption. cbn [snd].
        apply (clk_prepare_enable_regs s (clk (pwms s h))).
      * exfalso. apply Hfail. apply cadence_pwm_config_success.
        split; [unfold clk_available; rewrite E; reflexivity|exact Hp].
    + rewrite cadence_pwm_config_clk_fail by exact E. reflexivity.
Qed.

Lemma config_access_sequence_witness :
  fst (cadence_pwm_config (reset_chip 50000000 0) 0 1500000 20000000) = 0 /\
  rev (dev_dbg (snd (cadence_pwm_config (reset_chip 50000000 0) 0
                                        1500000 20000000)))
  = [ IoRead 0 CPWM_COUNTER_CTRL 0x21;
      IoWrite 0 CPWM_COUNTER_CTRL 0x21;
      IoRead 0 CPWM_CLK_CTRL 0;
      IoWrite 0 CPWM_CLK_CTRL 7;
      IoWrite 0 CPWM_INTERVAL_COUNTER 62500;
      IoWrite 0 CPWM_MATCH_1_COUNTER 4687;
      IoWrite 0 CPWM_COUNTER_CTRL 0x7b ].
Proof.
  assert (H : fst (cadence_pwm_config (reset_chip 50000000 0) 0
                                      1500000 20000000) = 0)
    by (vm_compute; reflexivity).
  split; [exact H|].
  rewrite (proj1 (config_access_sequence (reset_chip 50000000 0) 0
                                         1500000 20000000) H).
  vm_compute. reflexivity.
Defined.

(** ** [cadence_pwm_probe] *)

Lemma clk_unprepare_after_prepare (s : cadence_pwm_chip) (c c' : nat) :
  clk_errno (clocks s c) = 0 ->
  clocks (clk_disable_unprepare c (snd (clk_prepare_enable c s))) c'
  = clocks s c'.
Proof.
  intros E. unfold clk_prepare_enable. rewrite E.
  unfold clk_disable_unprepare.
  cbn [Z.eqb snd set_clocks clocks]. rewrite Nat.eqb_refl.
  cbn [clk_rate clk_prepare_count clk_enable_count clk_errno Nat.pred].
  destruct (Nat.eqb_spec c' c) as [->|Hne]; [|reflexivity].
  rewrite <- E. destruct (clocks s c). reflexivity.
Qed.

Lemma probe_channels_some (pdev : platform_device) (system_clk : nat)
  (n i : nat) (pw pw' : Z -> cadence_pwm_pwm) :
  probe_channels pdev system_clk n i pw = Some pw' ->
  (forall j, (i <= j < i + n)%nat ->
     exists c,
       clk_get_or_default pdev (clockname j) = Some c /\
       pw' (Z.of_nat j)
       = mk_cadence_pwm_pwm c (negb (clk_is_match c system_clk))
                            PWM_POLARITY_NORMAL) /\
  (forall z, ~ (Z.of_nat i <= z < Z.of_nat (i + n)) -> pw' z = pw z).
Proof.
  revert i pw. induction n as [|k IH]; intros i pw H; cbn [probe_channels] in H.
  - injection H as <-. split; [intros j Hj; lia|reflexivity].
  - destruct (clk_get_or_default pdev (clockname i)) as [c|] eqn:Hc;
      [|discriminate].
    destruct (IH _ _ H) as [Hin Hout]. split.
    + intros j Hj. destruct (Nat.eq_dec j i) as [->|Hne].
      * exists c. split; [exact Hc|].
        rewrite Hout by lia. rewrite Z.eqb_refl. reflexivity.
      * apply Hin. lia.
    + intros z Hz. rewrite Hout by lia.
      destruct (Z.eqb_spec z (Z.of_nat i)); [lia|reflexivity].
Qed.

(** X17. A probe that does not hand back a chip has changed nothing: no
    register was accessed, and every clock, the system clock included, has
    the prepare and enable counts it had before the call, because every
    error exit taken after the system clock was started goes through
    [disable_system_clk].  Every non-zero return is such a probe. *)
Theorem probe_failure_unwinds (pdev : platform_device) (s : cadence_pwm_chip) :
  let r := cadence_pwm_probe pdev s in
  (fst (fst r) <> 0 -> snd r = None) /\
  (snd r = None ->
   mmio (snd (fst r)) = mmio s /\
   dev_dbg (snd (fst r)) = dev_dbg s /\
   pwms (snd (fst r)) = pwms s /\
   (forall c, clocks (snd (fst r)) c = clocks s c)).
Proof.
  intros r. subst r. unfold cadence_pwm_probe.
  destruct (devm_kzalloc_ok pdev); cbn [negb fst snd];
    [|split; [reflexivity|repeat split]].
  destruct (devm_ioremap_resource pdev) as [|err]; cbn [fst snd];
    [|split; [reflexivity|repeat split]].
  destruct (clk_get_or_default pdev "system_clk") as [sys|]; cbn [fst snd];
    [|split; [reflexivity|repeat split]].
  destruct (Z.eq_dec (clk_errno (clocks s sys)) 0) as [E|E].
  - assert (Hpe : clk_prepare_enable sys s
                  = (0, snd (clk_prepare_enable sys s))).
    { unfold clk_prepare_enable. rewrite E. reflexivity. }
    rewrite Hpe. cbn [Z.eqb negb].
    destruct (clk_prepare_enable_regs s sys) as [Hm [Hl Hp]].
    destruct (probe_channels pdev sys (Z.to_nat CPWM_NUM_PWM) 0
                (pwms (snd (clk_prepare_enable sys s)))) as [pw|];
      cbn [fst snd].
    + destruct (pwmchip_add pdev <? 0) eqn:Hadd; cbn [fst snd].
      * split; [reflexivity|]. intros _.
        split; [exact Hm|]. split; [exact Hl|]. split; [exact Hp|].
        intros c. apply clk_unprepare_after_prepare. exact E.
      * split; [intros H; contradiction|discriminate].
    + split; [reflexivity|]. intros _.
      split; [exact Hm|]. split; [exact Hl|]. split; [exact Hp|].
      intros c. apply clk_unprepare_after_prepare. exact E.
  - rewrite clk_prepare_enable_fails by exact E.
    destruct (Z.eqb_spec (clk_errno (clocks s sys)) 0); [contradiction|].
    cbn [negb fst snd]. split; [reflexivity|repeat split].
Qed.

Lemma probe_failure_unwinds_witness :
  snd (cadence_pwm_probe
         (mk_platform_device true PtrOk (devm_clk_get example_pdev) (-16))
         (reset_chip 50000000 0)) = None /\
  clocks (snd (fst (cadence_pwm_probe
                      (mk_platform_device true PtrOk
                                          (devm_clk_get example_pdev) (-16))
                      (reset_chip 50000000 0)))) 0%nat
  = clocks (reset_chip 50000000 0) 0%nat.
Proof.
  assert (H : snd (cadence_pwm_probe
                     (mk_platform_device true PtrOk
                                         (devm_clk_get example_pdev) (-16))
                     (reset_chip 50000000 0)) = None) by reflexivity.
  split; [exact H|].
  destruct (proj2 (probe_failure_unwinds
                     (mk_platform_device true PtrOk
                                         (devm_clk_get example_pdev) (-16))
                     (reset_chip 50000000 0)) H) as [_ [_ [_ Hc]]].
  exact (Hc 0%nat).
Defined.

Lemma cadence_pwm_probe_channels
  (pdev : platform_device) (s : cadence_pwm_chip) (system_clk : nat) :
  snd (cadence_pwm_probe pdev s) = Some system_clk ->
  forall i, (i < 3)%nat ->
    exists c,
      clk_get_or_default pdev (clockname i) = Some c /\
      pwms (snd (fst (cadence_pwm_probe pdev s))) (Z.of_nat i)
      = mk_cadence_pwm_pwm c (negb (clk_is_match c system_clk))
                           PWM_POLARITY_NORMAL.
Proof.
  unfold cadence_pwm_probe.
  destruct (devm_kzalloc_ok pdev); cbn [negb fst snd]; [|discriminate].
  destruct (devm_ioremap_resource pdev) as [|err]; cbn [fst snd];
    [|discriminate].
  destruct (clk_get_or_default pdev "system_clk") as [sys|]; cbn [fst snd];
    [|discriminate].
  destruct (clk_prepare_enable sys s) as [ret s1].
  destruct (negb (ret =? 0)); cbn [fst snd]; [discriminate|].
  destruct (probe_channels pdev sys (Z.to_nat CPWM_NUM_PWM) 0 (pwms s1))
    as [pw|] eqn:Hloop; cbn [fst snd]; [|discriminate].
  destruct (pwmchip_add pdev <? 0); cbn [fst snd]; [discriminate|].
  intros Hsome i Hi. injection Hsome as <-.
  unfold set_pwms. cbn [pwms].
  apply (proj1 (probe_channels_some _ _ _ _ _ _ Hloop)).
  change (Z.to_nat CPWM_NUM_PWM) with 3%nat. lia.
Qed.

(** X18. A probe that hands back a chip returned 0 and left the system
    clock started once more than before, every other clock and every
    register untouched.  Each of the three channels got the clock named
    [clock<i>], or the default clock when that name is missing, normal
    polarity, and the external-clock flag exactly when its clock is not the
    system clock. *)
Theorem probe_success
  (pdev : platform_device) (s : cadence_pwm_chip) (system_clk : nat) :
  snd (cadence_pwm_probe pdev s) = Some system_clk ->
  let s' := snd (fst (cadence_pwm_probe pdev s)) in
  fst (fst (cadence_pwm_probe pdev s)) = 0 /\
  clk_get_or_default pdev "system_clk" = Some system_clk /\
  clk_prepare_count (clocks s' system_clk)
  = S (clk_prepare_count (clocks s system_clk)) /\
  clk_enable_count (clocks s' system_clk)
  = S (clk_enable_count (clocks s system_clk)) /\
  (forall c, c <> system_clk -> clocks s' c = clocks s c) /\
  mmio s' = mmio s /\
  dev_dbg s' = dev_dbg s /\
  (forall i, (i < 3)%nat ->
     exists c,
       clk_get_or_default pdev (clockname i) = Some c /\
       pwms s' (Z.of_nat i)
       = mk_cadence_pwm_pwm c (negb (clk_is_match c system_clk))
                            PWM_POLARITY_NORMAL).
Proof.
  intros Hsome s'. subst s'. revert Hsome. unfold cadence_pwm_probe.
  destruct (devm_kzalloc_ok pdev); cbn [negb fst snd]; [|discriminate].
  destruct (devm_ioremap_resource pdev) as [|err]; cbn [fst snd];
    [|discriminate].
  destruct (clk_get_or_default pdev "system_clk") as [sys|]; cbn [fst snd];
    [|discriminate].
  destruct (Z.eq_dec (clk_errno (clocks s sys)) 0) as [E|E].
  - assert (Hpe : clk_prepare_enable sys s
                  = (0, snd (clk_prepare_enable sys s))).
    { unfold clk_prepare_enable. rewrite E. reflexivity. }
    rewrite Hpe. cbn [Z.eqb negb].
    destruct (clk_prepare_enable_regs s sys) as [Hm [Hl Hp]].
    destruct (clk_prepare_enable_counts s sys E) as [Hpc [Hec _]].
    destruct (probe_channels pdev sys (Z.to_nat CPWM_NUM_PWM) 0
                (pwms (snd (clk_prepare_enable sys s)))) as [pw|] eqn:Hloop;
      cbn [fst snd]; [|discriminate].
    destruct (pwmchip_add pdev <? 0); cbn [fst snd]; [discriminate|].
    intros Hsome. injection Hsome as <-.
    unfold set_pwms. cbn [clocks mmio dev_dbg pwms].
    split; [reflexivity|]. split; [reflexivity|].
    split; [exact Hpc|]. split; [exact Hec|]. split; [|split; [exact Hm|]].
    + intros c Hne. unfold clk_prepare_enable. rewrite E.
      cbn [Z.eqb snd set_clocks clocks].
      destruct (Nat.eqb_spec c sys); [contradiction|reflexivity].
    + split; [exact Hl|].
      intros i Hi.
      apply (proj1 (probe_channels_some _ _ _ _ _ _ Hloop)).
      change (Z.to_nat CPWM_NUM_PWM) with 3%nat. lia.
  - rewrite clk_prepare_enable_fails by exact E.
    destruct (Z.eqb_spec (clk_errno (clocks s sys)) 0); [contradiction|].
    cbn [negb fst snd]. discriminate.
Qed.

Lemma probe_success_witness :
  snd (cadence_pwm_probe example_pdev (reset_chip 50000000 0)) = Some 0%nat /\
  useExternalClk
    (pwms (snd (fst (cadence_pwm_probe example_pdev (reset_chip 50000000 0))))
          1) = true /\
  clk_enable_count
    (clocks (snd (fst (cadence_pwm_probe example_pdev
                                         (reset_chip 50000000 0)))) 0%nat)
  = 1%nat.
Proof.
  assert (H : snd (cadence_pwm_probe example_pdev (reset_chip 50000000 0))
              = Some 0%nat) by reflexivity.
  split; [exact H|]. split; [reflexivity|].
  destruct (probe_success example_pdev (reset_chip 50000000 0) 0%nat H)
    as [_ [_ [_ [He _]]]].
  exact He.
Defined.

(** X19. On a chip as the probe leaves it, the first successful
    [cadence_pwm_config] of a channel selects the external clock source
    exactly when the channel's clock is not the system clock, and programs
    normal wave polarity, the default the probe gives every channel. *)
Theorem probe_then_config
  (pdev : platform_device) (s : cadence_pwm_chip) (system_clk : nat)
  (h duty_ns period_ns : Z) :
  snd (cadence_pwm_probe pdev s) = Some system_clk ->
  valid_hwpwm h ->
  let s1 := snd (fst (cadence_pwm_probe pdev s)) in
  fst (cadence_pwm_config s1 h duty_ns period_ns) = 0 ->
  let s2 := snd (cadence_pwm_config s1 h duty_ns period_ns) in
  Z.testbit (reg_value s2 h CPWM_CLK_CTRL) 5
  = negb (clk_is_match (clk (pwms s1 h)) system_clk) /\
  Z.testbit (reg_value s2 h CPWM_COUNTER_CTRL) 6 = true.
Proof.
  intros Hsome Hh s1 Hok s2. subst s2.
  pose proof (cadence_pwm_probe_channels pdev s system_clk Hsome) as Hch.
  fold s1 in Hch.
  unfold valid_hwpwm, CPWM_NUM_PWM in Hh.
  destruct (Hch (Z.to_nat h)) as [c [_ Hpwm]]; [lia|].
  rewrite Z2Nat.id in Hpwm by lia.
  apply cadence_pwm_config_success in Hok. destruct Hok as [Hclk Hp].
  destruct (cadence_pwm_config_regs s1 h duty_ns period_ns Hclk Hp)
    as [_ [_ [Hck Hcc]]].
  rewrite Hck, Hcc, clk_ctrl_high_testbit, counter_ctrl_restore_testbit by lia.
  rewrite Hpwm. split; reflexivity.
Qed.

Lemma probe_then_config_witness :
  snd (cadence_pwm_probe example_pdev (reset_chip 50000000 0)) = Some 0%nat /\
  valid_hwpwm 1 /\
  Z.testbit
    (reg_value
       (snd (cadence_pwm_config
               (snd (fst (cadence_pwm_probe example_pdev
                                            (reset_chip 50000000 0))))
               1 1500000 20000000)) 1 CPWM_CLK_CTRL) 5 = true.
Proof.
  assert (H1 : snd (cadence_pwm_probe example_pdev (reset_chip 50000000 0))
               = Some 0%nat) by reflexivity.
  assert (H2 : valid_hwpwm 1) by (unfold valid_hwpwm, CPWM_NUM_PWM; lia).
  assert (H3 : fst (cadence_pwm_config
                      (snd (fst (cadence_pwm_probe example_pdev
                                                   (reset_chip 50000000 0))))
                      1 1500000 20000000) = 0) by (vm_compute; reflexivity).
  split; [exact H1|]. split; [exact H2|].
  rewrite (proj1 (probe_then_config example_pdev (reset_chip 50000000 0)
                    0%nat 1 1500000 20000000 H1 H2 H3)).
  reflexivity.
Defined.

(** ** Edge cases and repetition of [cadence_pwm_config] *)

Lemma ns_to_clocks_zero (rate : Z) : ns_to_clocks 0 rate = 0.
Proof.
  unfold ns_to_clocks, clocks_u64.
  change (to_s64 0) with 0. rewrite Z.mul_0_l. reflexivity.
Qed.

(** X20. A zero period is accepted: the call succeeds with 0 period
    clocks and exponent 0, disables the prescaler and programs an interval
    of 0, while the match register receives the low 16 bits of the duty
    clocks. *)
Theorem config_zero_period (s : cadence_pwm_chip) (h duty_ns : Z) :
  clk_available s h = true ->
  let r := cadence_pwm_config s h duty_ns 0 in
  fst r = 0 /\
  period_clocks_of s h 0 = 0 /\
  prescaler_of s h 0 = 0 /\
  reg_value (snd r) h CPWM_INTERVAL_COUNTER = 0 /\
  reg_value (snd r) h CPWM_MATCH_1_COUNTER
  = Z.land (duty_clocks_of s h duty_ns) 0xffff /\
  Z.land (reg_value (snd r) h CPWM_CLK_CTRL)
         (Z.lor CPWM_CLK_PRESCALE_ENABLE CPWM_CLK_PRESCALE_MASK) = 0.
Proof.
  intros Hclk r. subst r.
  assert (Hp : 0 <= 0) by lia.
  assert (Hpc : period_clocks_of s h 0 = 0)
    by (rewrite period_clocks_of_eq; apply ns_to_clocks_zero).
  assert (Hpre : prescaler_of s h 0 = 0)
    by (rewrite prescaler_of_eq, Hpc; reflexivity).
  destruct (cadence_pwm_config_regs s h duty_ns 0 Hclk Hp)
    as [Hi [Hm [Hck _]]].
  split; [apply cadence_pwm_config_success; split; assumption|].
  split; [exact Hpc|]. split; [exact Hpre|]. split; [|split].
  - rewrite Hi, interval_count_eq, Hpc, Hpre. reflexivity.
  - rewrite Hm, match_count_eq, Hpre, Z.shiftr_0_r. reflexivity.
  - rewrite Hck, clk_ctrl_prescale_bits, Hpre. reflexivity.
Qed.

Lemma config_zero_period_witness :
  clk_available (reset_chip 50000000 0) 0 = true /\
  reg_value (snd (cadence_pwm_config (reset_chip 50000000 0) 0 1500000 0))
            0 CPWM_INTERVAL_COUNTER = 0 /\
  reg_value (snd (cadence_pwm_config (reset_chip 50000000 0) 0 1500000 0))
            0 CPWM_MATCH_1_COUNTER = 0x24f8.
Proof.
  assert (H : clk_available (reset_chip 50000000 0) 0 = true) by reflexivity.
  split; [exact H|].
  destruct (config_zero_period (reset_chip 50000000 0) 0 1500000 H)
    as [_ [_ [_ [Hi [Hm _]]]]].
  split; [exact Hi|]. rewrite Hm. vm_compute. reflexivity.
Defined.

Lemma counter_ctrl_restore_idem (x : Z) (pol : pwm_polarity) :
  to_u32 (counter_ctrl_restore (to_u32 (counter_ctrl_restore x pol)) pol)
  = to_u32 (counter_ctrl_restore x pol).
Proof. unfold counter_ctrl_restore. destruct pol; u32_bits. Qed.

Lemma clk_ctrl_word_idem (x e : Z) (external : bool) :
  to_u32 (clk_ctrl_source
            (clk_ctrl_prescale
               (to_u32 (clk_ctrl_source (clk_ctrl_prescale x e) external)) e)
            external)
  = to_u32 (clk_ctrl_source (clk_ctrl_prescale x e) external).
Proof.
  unfold clk_ctrl_source, clk_ctrl_prescale.
  destruct external, (e =? 0); u32_bits.
Qed.

(** X21. Repeating a successful [cadence_pwm_config] with the same
    arguments changes no register: the second call computes the same
    counts and writes back the words the first call left.  Only the clock
    counts differ, each call taking one more reference. *)
Theorem config_idempotent_registers
  (s : cadence_pwm_chip) (h duty_ns period_ns : Z) :
  fst (cadence_pwm_config s h duty_ns period_ns) = 0 ->
  let s1 := snd (cadence_pwm_config s h duty_ns period_ns) in
  let s2 := snd (cadence_pwm_config s1 h duty_ns period_ns) in
  fst (cadence_pwm_config s1 h duty_ns period_ns) = 0 /\
  (forall a, mmio s2 a = mmio s1 a) /\
  clk_enable_count (clocks s2 (clk (pwms s h)))
  = S (S (clk_enable_count (clocks s (clk (pwms s h))))).
Proof.
  intros Hok s1 s2. subst s2.
  apply cadence_pwm_config_success in Hok. destruct Hok as [Hclk Hp].
  assert (E := Hclk). unfold clk_available in E. apply Z.eqb_eq in E.
  destruct (cadence_pwm_config_ok s h duty_ns period_ns E Hp)
    as [_ [Hpw [Hc [Hm _]]]].
  destruct (cadence_pwm_config_regs s h duty_ns period_ns Hclk Hp)
    as [_ [_ [Hck Hcc]]].
  fold s1 in Hpw, Hc, Hm, Hck, Hcc.
  assert (E1 : clk_errno (clocks s1 (clk (pwms s1 h))) = 0).
  { rewrite Hpw, Hc, clk_prepare_enable_errno. exact E. }
  assert (Hclk1 : clk_available s1 h = true)
    by (unfold clk_available; rewrite E1; reflexivity).
  destruct (clk_prepare_enable_counts s (clk (pwms s h)) E) as [_ [He Hrt]].
  assert (Hrate : clk_get_rate (clk (pwms s1 h)) s1
                  = clk_get_rate (clk (pwms s h)) s).
  { unfold clk_get_rate. rewrite Hpw, Hc. exact Hrt. }
  assert (Hpc : period_clocks_of s1 h period_ns = period_clocks_of s h period_ns)
    by (rewrite !period_clocks_of_eq, Hrate; reflexivity).
  assert (Hdc : duty_clocks_of s1 h duty_ns = duty_clocks_of s h duty_ns)
    by (rewrite !duty_clocks_of_eq, Hrate; reflexivity).
  assert (Hpre : prescaler_of s1 h period_ns = prescaler_of s h period_ns)
    by (rewrite !prescaler_of_eq, Hpc; reflexivity).
  destruct (cadence_pwm_config_ok s1 h duty_ns period_ns E1 Hp)
    as [Hret1 [_ [Hc1 [Hm1 _]]]].
  split; [exact Hret1|]. split.
  - intros a. rewrite Hm1, Hm.
    rewrite Hcc, Hck, Hpw, Hpre.
    rewrite counter_ctrl_restore_idem, clk_ctrl_word_idem.
    rewrite interval_count_eq, match_count_eq, Hpc, Hdc, Hpre.
    rewrite <- interval_count_eq, <- match_count_eq.
    destruct (a =? cpwm_register_address h CPWM_COUNTER_CTRL);
      [reflexivity|].
    destruct (a =? cpwm_register_address h CPWM_MATCH_1_COUNTER);
      [reflexivity|].
    destruct (a =? cpwm_register_address h CPWM_INTERVAL_COUNTER);
      [reflexivity|].
    destruct (a =? cpwm_register_address h CPWM_CLK_CTRL); reflexivity.
  - rewrite Hc1, Hpw.
    assert (E1' : clk_errno (clocks s1 (clk (pwms s h))) = 0)
      by (rewrite <- Hpw; exact E1).
    destruct (clk_prepare_enable_counts s1 (clk (pwms s h)) E1')
      as [_ [He1 _]].
    rewrite He1, Hc, He. reflexivity.
Qed.

Lemma config_idempotent_registers_witness :
  fst (cadence_pwm_config (running_chip 50000000 0) 0 1500000 20000000) = 0 /\
  reg_value
    (snd (cadence_pwm_config
            (snd (cadence_pwm_config (running_chip 50000000 0) 0
                                     1500000 20000000))
            0 1500000 20000000)) 0 CPWM_COUNTER_CTRL
  = reg_value (snd (cadence_pwm_config (running_chip 50000000 0) 0
                                       1500000 20000000))
              0 CPWM_COUNTER_CTRL.
Proof.
  assert (H : fst (cadence_pwm_config (running_chip 50000000 0) 0
                                      1500000 20000000) = 0)
    by (vm_compute; reflexivity).
  split; [exact H|].
  destruct (config_idempotent_registers (running_chip 50000000 0) 0
                                        1500000 20000000 H) as [_ [Hm _]].
  unfold reg_value, ioread32. rewrite Hm. reflexivity.
Defined.

(** ** Reading back what was written *)


